(** * The render loop and FPS overlay of [src/game.ts]

    A shallow embedding of the bug-reproduction harness: the module-level
    variables of [game.ts] become one record, the [requestAnimationFrame]
    callback [renderLoop] becomes a state transformer that also emits the
    calls it makes on the Rive renderer and on the overlay's 2D context, and
    the click handlers of the two buttons become functions on that record.
    JavaScript numbers that carry time or frame rates are IEEE 754 binary64
    values ([PrimFloat.float]); counters and canvas sizes, which the program
    only ever holds as small integers, are [Z] and [nat]. *)

From Stdlib Require Import ZArith Bool Lia String List.
From Stdlib Require Import Uint63 Floats DecimalString.
Import ListNotations.

Set Warnings "-inexact-float".
Local Open Scope string_scope.
Local Open Scope list_scope.
Local Open Scope Z_scope.

(** * Part I: the program *)

(** ** JavaScript numbers *)

Module JS.

Definition number := float.
Bind Scope float_scope with number.

(** [ToBoolean] on a number: [+0], [-0] and [NaN] are falsy. *)
Definition falsy (x : number) : bool := is_zero x || is_nan x.

(** Integers as numbers; exact below [2^53]. *)
Definition of_Z (z : Z) : number :=
  match z with
  | Z0 => zero
  | Zpos _ => of_uint63 (Uint63.of_Z z)
  | Zneg p => (- of_uint63 (Uint63.of_Z (Zpos p)))%float
  end.

Definition of_nat (n : nat) : number := of_Z (Z.of_nat n).

(** [Math.min] and [Math.max] of two arguments: [NaN] is contagious; of two
    equal arguments the first is returned, except that [-0] counts as smaller
    than [+0]. *)
Definition Math_min (x y : number) : number :=
  if is_nan x || is_nan y then nan
  else if (x <? y)%float then x
  else if (y <? x)%float then y
  else if is_zero x && get_sign y then y else x.

Definition Math_max (x y : number) : number :=
  if is_nan x || is_nan y then nan
  else if (x <? y)%float then y
  else if (y <? x)%float then x
  else if is_zero x && get_sign x then y else x.

(** A value read from an array: the element, or [undefined] when the index
    is not one of the array's. *)
Inductive value :=
| Undefined
| Num (x : number).

Definition ToNumber (v : value) : number :=
  match v with
  | Undefined => nan
  | Num x => x
  end.

(** [arr[i]] for an integer index. *)
Definition index (arr : list number) (i : Z) : value :=
  if i <? 0 then Undefined
  else match nth_error arr (Z.to_nat i) with
       | Some x => Num x
       | None => Undefined
       end.

(** [Math.round]: the integer nearest to the argument, ties towards
    [+Infinity]; [NaN], the infinities and the zeros are returned as they are,
    and a result of zero keeps the sign of the argument. *)
Definition Math_round (v : value) : number :=
  let x := ToNumber v in
  match Prim2SF x with
  | S754_finite s m e =>
      if 0 <=? e then x
      else
        let d := 2 ^ (- e) in
        let r := if s then (d - 2 * Zpos m) / (2 * d)
                 else (2 * Zpos m + d) / (2 * d) in
        if r =? 0 then (if s then neg_zero else zero) else of_Z r
  | _ => x
  end.

End JS.

(** ** The 2D context of the overlay canvas

    The part of [CanvasRenderingContext2D] that [drawFPSGraph] uses.  The
    context keeps the current styles, font and path; an operation may change
    them and may paint.  What is painted is recorded with the styles in force
    at that moment, so the list of paints determines the pixels. *)

Module Canvas.

Import JS.

Inductive segment :=
| MoveTo (x y : number)
| LineTo (x y : number).

(** A template literal: literal chunks and numbers awaiting [ToString]. *)
Inductive piece :=
| Lit (s : string)
| Hole (x : number).

Definition text := list piece.

Inductive paint :=
| ClearRect (x y w h : number)
| FillRect (style : string) (x y w h : number)
| Stroke (style : string) (path : list segment)
| FillText (style font : string) (t : text) (x y : number).

Record context := mkContext {
  strokeStyle : string;
  fillStyle : string;
  font : string;
  path : list segment
}.

(** The state of a context obtained from [getContext('2d')]. *)
Definition fresh : context :=
  {| strokeStyle := "#000000"; fillStyle := "#000000";
     font := "10px sans-serif"; path := [] |}.

(** A command runs on a context and yields the new context together with
    what it painted. *)
Definition cmd := context -> context * list paint.

Definition skip : cmd := fun c => (c, []).

Definition seq (a b : cmd) : cmd :=
  fun c => let (c1, o1) := a c in
           let (c2, o2) := b c1 in
           (c2, o1 ++ o2).

Declare Scope cmd_scope.
Delimit Scope cmd_scope with cmd.
Bind Scope cmd_scope with cmd.
Notation "a ;; b" := (seq a b) (at level 61, right associativity) : cmd_scope.

Definition set_strokeStyle (s : string) : cmd :=
  fun c => ({| strokeStyle := s; fillStyle := fillStyle c;
               font := font c; path := path c |}, []).

Definition set_fillStyle (s : string) : cmd :=
  fun c => ({| strokeStyle := strokeStyle c; fillStyle := s;
               font := font c; path := path c |}, []).

Definition set_font (s : string) : cmd :=
  fun c => ({| strokeStyle := strokeStyle c; fillStyle := fillStyle c;
               font := s; path := path c |}, []).

(** The context with [segs] added to its path. *)
Definition add_path (segs : list segment) (c : context) : context :=
  {| strokeStyle := strokeStyle c; fillStyle := fillStyle c;
     font := font c; path := path c ++ segs |}.

Definition beginPath : cmd :=
  fun c => ({| strokeStyle := strokeStyle c; fillStyle := fillStyle c;
               font := font c; path := [] |}, []).
Definition moveTo (x y : number) : cmd := fun c => (add_path [MoveTo x y] c, []).
Definition lineTo (x y : number) : cmd := fun c => (add_path [LineTo x y] c, []).

Definition clearRect (x y w h : number) : cmd :=
  fun c => (c, [ClearRect x y w h]).
Definition fillRect (x y w h : number) : cmd :=
  fun c => (c, [FillRect (fillStyle c) x y w h]).
Definition stroke : cmd :=
  fun c => (c, [Stroke (strokeStyle c) (path c)]).
Definition fillText (t : text) (x y : number) : cmd :=
  fun c => (c, [FillText (fillStyle c) (font c) t x y]).

(** [xs.forEach((x, i) => body)], the index starting at [i]. *)
Fixpoint forEach_from {A} (i : nat) (xs : list A) (body : A -> nat -> cmd) : cmd :=
  match xs with
  | [] => skip
  | x :: rest => (body x i ;; forEach_from (S i) rest body)%cmd
  end.

Definition forEach {A} (xs : list A) (body : A -> nat -> cmd) : cmd :=
  forEach_from 0 xs body.

(** [for (let i = start; i < bound; i += step) body], for a positive [step];
    [fuel] bounds the number of rounds. *)
Fixpoint for_step (fuel : nat) (i bound step : Z) (body : Z -> cmd) : cmd :=
  match fuel with
  | O => skip
  | S fuel' =>
      if i <? bound then (body i ;; for_step fuel' (i + step) bound step body)%cmd
      else skip
  end.

End Canvas.

(** ** The program: module-level variables and functions of [game.ts] *)

Module Game.

Import JS Canvas.

(** [rive.Fit] and [rive.Alignment], as far as the program names them. *)
Inductive Fit := contain.
Inductive Alignment := center.

(** What the program does to the outside world: pixels painted on the
    overlay canvas, calls on the Rive renderer, artboard and state machine,
    and requests to run [renderLoop] again.  [renderer_align] carries the
    fit, the alignment and the frame; its last argument in the source,
    [artboard.bounds], belongs to the artboard and is not recorded. *)
Inductive event :=
| Overlay (p : paint)
| renderer_clear
| stateMachine_advance (elapsedTimeSec : number)
| artboard_advance (elapsedTimeSec : number)
| renderer_save
| renderer_align (fit : Fit) (alignment : Alignment) (minX minY maxX maxY : Z)
| artboard_draw
| renderer_restore
| renderer_flush
| resolveAnimationFrame
| requestAnimationFrame_renderLoop.

Record globals := mkGlobals {
  lastTime : number;
  renderCount : Z;
  fpsArray : list number;
  canvas_width : Z;
  canvas_height : Z;
  fpsCanvas_width : Z;
  fpsCanvas_height : Z;
  fpsContext : context;
  countDisplay : string
}.

Definition MAX_FPS_SAMPLES : nat := 1000.

Definition Z_toString (z : Z) : string :=
  DecimalString.NilZero.string_of_int (Z.to_int z).

(** [minusBtn.onclick] and [plusBtn.onclick]. *)
Definition minusBtn_onclick (g : globals) : globals :=
  let renderCount' := Z.max 1 (renderCount g - 1) in
  {| lastTime := lastTime g; renderCount := renderCount';
     fpsArray := fpsArray g;
     canvas_width := canvas_width g; canvas_height := canvas_height g;
     fpsCanvas_width := fpsCanvas_width g; fpsCanvas_height := fpsCanvas_height g;
     fpsContext := fpsContext g;
     countDisplay := Z_toString renderCount' |}.

Definition plusBtn_onclick (g : globals) : globals :=
  let renderCount' := Z.min 100 (renderCount g + 1) in
  {| lastTime := lastTime g; renderCount := renderCount';
     fpsArray := fpsArray g;
     canvas_width := canvas_width g; canvas_height := canvas_height g;
     fpsCanvas_width := fpsCanvas_width g; fpsCanvas_height := fpsCanvas_height g;
     fpsContext := fpsContext g;
     countDisplay := Z_toString renderCount' |}.

Definition minFPS : number := 15%float.
Definition maxFPS : number := 200%float.
Definition targetFPS : list number := [30; 60; 120]%float.

(** [drawFPSGraph], reading [fpsCanvas.width], [fpsCanvas.height] and
    [fpsArray] and drawing on [fpsContext]. *)
Definition drawFPSGraph (W H : Z) (fpsArray : list number) : cmd :=
  let width := of_Z W in
  let height := of_Z H in
  (clearRect 0 0 width height ;;
   set_fillStyle "rgba(0, 0, 0, 0.7)" ;;
   fillRect 0 0 width height ;;

   set_strokeStyle "rgba(255, 255, 255, 0.1)" ;;
   beginPath ;;
   for_step (Z.to_nat W) 0 W 20
     (fun i => moveTo (of_Z i) 0 ;; lineTo (of_Z i) height) ;;
   for_step (Z.to_nat H) 0 H 20
     (fun i => moveTo 0 (of_Z i) ;; lineTo width (of_Z i)) ;;
   stroke ;;

   forEach targetFPS
     (fun fps _ =>
        let yPos := (height - (((fps - minFPS) / (maxFPS - minFPS)) * height))%float in
        set_strokeStyle "rgba(255, 0, 0, 0.5)" ;;
        beginPath ;;
        moveTo 0 yPos ;;
        lineTo width yPos ;;
        stroke ;;
        set_fillStyle "rgb(255, 255, 255)" ;;
        set_font "8px monospace" ;;
        fillText [Hole fps; Lit " FPS"] 5 (yPos - 2)%float) ;;

   set_strokeStyle "rgb(0, 255, 0)" ;;
   beginPath ;;
   moveTo 0 height ;;
   (if (1 <? length fpsArray)%nat then
      forEach fpsArray
        (fun fps i =>
           let x := ((of_nat i / of_Z (Z.of_nat (length fpsArray) - 1)) * width)%float in
           let clampedFPS := Math_max minFPS (Math_min maxFPS fps) in
           let y := (height - (((clampedFPS - minFPS) / (maxFPS - minFPS)) * height))%float in
           lineTo x y)
    else skip) ;;
   stroke ;;

   set_fillStyle "rgb(255, 255, 255)" ;;
   set_font "10px monospace" ;;
   fillText [Lit "Current: ";
             Hole (Math_round (index fpsArray (Z.of_nat (length fpsArray) - 1)));
             Lit " FPS"] 5 10)%cmd.

(** Lines 106-109 of [renderLoop]: push the sample, drop the oldest one
    when the array has grown past [MAX_FPS_SAMPLES]. *)
Definition track (fps : number) (arr : list number) : list number :=
  let arr' := arr ++ [fps] in
  if (MAX_FPS_SAMPLES <? length arr')%nat then tl arr' else arr'.

(** The value [lastTime] holds after the falsiness test of line 97. *)
Definition startTime (time : number) (g : globals) : number :=
  if falsy (lastTime g) then time else lastTime g.

Definition elapsedTimeMs (time : number) (g : globals) : number :=
  (time - startTime time g)%float.

Definition elapsedTimeSec (time : number) (g : globals) : number :=
  (elapsedTimeMs time g / 1000)%float.

(** [for (let i = 0; i < renderCount; i++) artboard.draw(renderer)]. *)
Fixpoint draw_loop (fuel : nat) (i renderCount : Z) : list event :=
  match fuel with
  | O => []
  | S fuel' =>
      if i <? renderCount then artboard_draw :: draw_loop fuel' (i + 1) renderCount
      else []
  end.

(** [renderLoop(time)]: the new values of the module's variables and the
    calls made, in order. *)
Definition renderLoop (time : number) (g : globals) : globals * list event :=
  let elapsedTimeSec := elapsedTimeSec time g in
  let fps := (1 / elapsedTimeSec)%float in
  let fpsArray' := track fps (fpsArray g) in
  let (ctx', painted) :=
    drawFPSGraph (fpsCanvas_width g) (fpsCanvas_height g) fpsArray' (fpsContext g) in
  ({| lastTime := time; renderCount := renderCount g;
      fpsArray := fpsArray';
      canvas_width := canvas_width g; canvas_height := canvas_height g;
      fpsCanvas_width := fpsCanvas_width g; fpsCanvas_height := fpsCanvas_height g;
      fpsContext := ctx';
      countDisplay := countDisplay g |},
   map Overlay painted
   ++ [renderer_clear;
       stateMachine_advance elapsedTimeSec;
       artboard_advance elapsedTimeSec;
       renderer_save;
       renderer_align contain center 0 0 (canvas_width g) (canvas_height g)]
   ++ draw_loop (Z.to_nat (renderCount g)) 0 (renderCount g)
   ++ [renderer_restore;
       renderer_flush;
       resolveAnimationFrame;
       requestAnimationFrame_renderLoop]).

(** [onResizeWindow], for a window of the given inner size. *)
Definition onResizeWindow (innerWidth innerHeight : Z) (g : globals) : globals :=
  {| lastTime := lastTime g; renderCount := renderCount g;
     fpsArray := fpsArray g;
     canvas_width := innerWidth; canvas_height := innerHeight;
     fpsCanvas_width := fpsCanvas_width g; fpsCanvas_height := fpsCanvas_height g;
     fpsContext := fpsContext g;
     countDisplay := countDisplay g |}.

(** The variables once [main] has run up to its call of
    [requestAnimationFrame]: the initialisers of lines 22-29 (a canvas
    element is 300 by 150 until it is resized), the [countDisplay] of
    line 57, [initFPSCanvas] and [onResizeWindow]. *)
Definition main (innerWidth innerHeight : Z) : globals :=
  onResizeWindow innerWidth innerHeight
    {| lastTime := 0%float; renderCount := 1;
       fpsArray := [];
       canvas_width := 300; canvas_height := 150;
       fpsCanvas_width := 200; fpsCanvas_height := 100;
       fpsContext := fresh;
       countDisplay := "1" |}.

(** What the browser delivers to the page after [main]. *)
Inductive input :=
| Frame (time : number)
| ClickMinus
| ClickPlus
| Resize (innerWidth innerHeight : Z).

Definition step (i : input) (g : globals) : globals * list event :=
  match i with
  | Frame time => renderLoop time g
  | ClickMinus => (minusBtn_onclick g, [])
  | ClickPlus => (plusBtn_onclick g, [])
  | Resize w h => (onResizeWindow w h g, [])
  end.

Fixpoint run (inputs : list input) (g : globals) : globals * list event :=
  match inputs with
  | [] => (g, [])
  | i :: rest =>
      let (g1, o1) := step i g in
      let (g2, o2) := run rest g1 in
      (g2, o1 ++ o2)
  end.

End Game.

Import JS Canvas Game.

(** * Part II: notions used in the statements *)

(** ** Histories and runs *)

(** The history after recording the samples [xs], oldest first, into [arr]. *)
Definition record_all (xs : list number) (arr : list number) : list number :=
  fold_left (fun a fps => track fps a) xs arr.

(** The rates the frames of a run compute, one per [Frame], oldest first. *)
Fixpoint rates (inputs : list input) (g : globals) : list number :=
  match inputs with
  | [] => []
  | i :: rest =>
      match i with
      | Frame time => [(1 / elapsedTimeSec time g)%float]
      | _ => []
      end ++ rates rest (fst (step i g))
  end.

(** The states the program goes through: [main], then whatever the browser
    delivers. *)
Definition reachable (g : globals) : Prop :=
  exists innerWidth innerHeight inputs,
    g = fst (run inputs (main innerWidth innerHeight)).

(** What holds of every such state. *)
Record Inv (g : globals) : Prop := {
  inv_count : 1 <= renderCount g <= 100;
  inv_display : countDisplay g = Z_toString (renderCount g);
  inv_history : (length (fpsArray g) <= MAX_FPS_SAMPLES)%nat;
  inv_width : fpsCanvas_width g = 200;
  inv_height : fpsCanvas_height g = 100
}.

(** A binary64 value that is a zero or has a mantissa and an exponent. *)
Definition SFfinite (x : spec_float) : Prop :=
  match x with
  | S754_zero _ | S754_finite _ _ _ => True
  | _ => False
  end.

(** Runs whose frames carry finite timestamps, as the browser's do. *)
Definition finite_frames (inputs : list input) : Prop :=
  forall time, In (Frame time) inputs -> is_finite time = true.

(** What holds of the numbers of every state of such a run. *)
Record Numbers (g : globals) : Prop := {
  num_lastTime : is_finite (lastTime g) = true;
  num_history : Forall (fun fps => is_nan fps = false) (fpsArray g)
}.

(** ** Logs *)

(** The overlay as [renderLoop] draws it: from the history that already
    holds this tick's sample. *)
Definition overlay_of (time : number) (g : globals) : list paint :=
  snd (drawFPSGraph (fpsCanvas_width g) (fpsCanvas_height g)
         (track (1 / elapsedTimeSec time g)%float (fpsArray g)) (fpsContext g)).

(** Kinds of calls, to count them in a log. *)
Definition is_draw (e : event) : bool :=
  match e with artboard_draw => true | _ => false end.
Definition is_stateMachine_advance (e : event) : bool :=
  match e with stateMachine_advance _ => true | _ => false end.
Definition is_artboard_advance (e : event) : bool :=
  match e with artboard_advance _ => true | _ => false end.
Definition is_flush (e : event) : bool :=
  match e with renderer_flush => true | _ => false end.
Definition is_request (e : event) : bool :=
  match e with requestAnimationFrame_renderLoop => true | _ => false end.

Definition count (p : event -> bool) (log : list event) : nat :=
  length (filter p log).

(** ** The overlay, described *)

(** The vertical position of a frame rate on an overlay of the given height:
    15 frames per second at the bottom row, 200 at the top. *)
Definition yPosition (height fps : number) : number :=
  (height - (((fps - 15) / (200 - 15)) * height))%float.

(** The horizontal position of sample [i] out of [n]. *)
Definition xPosition (width : number) (n i : nat) : number :=
  ((of_nat i / of_Z (Z.of_nat n - 1)) * width)%float.

Definition clamp (fps : number) : number := Math_max 15 (Math_min 200 fps).

(** The segments a [for] loop adds to the path when each round adds
    [segs i]. *)
Fixpoint for_step_path (fuel : nat) (i bound step : Z) (segs : Z -> list segment)
  : list segment :=
  match fuel with
  | O => []
  | S fuel' =>
      if i <? bound then segs i ++ for_step_path fuel' (i + step) bound step segs
      else []
  end.

(** The segments [forEach] adds for the elements [xs], the first one having
    index [i]. *)
Fixpoint forEach_path {A} (i : nat) (xs : list A) (seg : A -> nat -> segment)
  : list segment :=
  match xs with
  | [] => []
  | x :: rest => seg x i :: forEach_path (S i) rest seg
  end.

Definition grid (W H : Z) : list segment :=
  for_step_path (Z.to_nat W) 0 W 20
    (fun i => [MoveTo (of_Z i) 0; LineTo (of_Z i) (of_Z H)])
  ++ for_step_path (Z.to_nat H) 0 H 20
    (fun i => [MoveTo 0 (of_Z i); LineTo (of_Z W) (of_Z i)]).

Definition reference_line (W H : Z) (fps : number) : list paint :=
  [Stroke "rgba(255, 0, 0, 0.5)"
     [MoveTo 0 (yPosition (of_Z H) fps); LineTo (of_Z W) (yPosition (of_Z H) fps)];
   FillText "rgb(255, 255, 255)" "8px monospace"
     [Hole fps; Lit " FPS"] 5 (yPosition (of_Z H) fps - 2)%float].

Definition polyline (W H : Z) (samples : list number) : list segment :=
  MoveTo 0 (of_Z H)
  :: (if (1 <? length samples)%nat then
        forEach_path 0 samples
          (fun fps i => LineTo (xPosition (of_Z W) (length samples) i)
                               (yPosition (of_Z H) (clamp fps)))
      else []).

Definition readout (samples : list number) : paint :=
  FillText "rgb(255, 255, 255)" "10px monospace"
    [Lit "Current: ";
     Hole (Math_round (index samples (Z.of_nat (length samples) - 1)));
     Lit " FPS"] 5 10.

(** Everything [drawFPSGraph] paints, as a function of the overlay's size
    and the samples. *)
Definition overlay (W H : Z) (samples : list number) : list paint :=
  [ClearRect 0 0 (of_Z W) (of_Z H);
   FillRect "rgba(0, 0, 0, 0.7)" 0 0 (of_Z W) (of_Z H);
   Stroke "rgba(255, 255, 255, 0.1)" (grid W H)]
  ++ flat_map (reference_line W H) [30; 60; 120]%float
  ++ [Stroke "rgb(0, 255, 0)" (polyline W H samples);
      readout samples].

(** The context [drawFPSGraph] leaves behind. *)
Definition context_after (W H : Z) (samples : list number) : context :=
  {| strokeStyle := "rgb(0, 255, 0)"; fillStyle := "rgb(255, 255, 255)";
     font := "10px monospace"; path := polyline W H samples |}.

(** ** Runs, counted *)

Definition is_frame (i : input) : bool :=
  match i with Frame _ => true | _ => false end.

(** The number of frames among the inputs of a run. *)
Definition frames (inputs : list input) : nat := length (filter is_frame inputs).

Definition is_clear (e : event) : bool :=
  match e with renderer_clear => true | _ => false end.
Definition is_save (e : event) : bool :=
  match e with renderer_save => true | _ => false end.
Definition is_restore (e : event) : bool :=
  match e with renderer_restore => true | _ => false end.

(** The size of the window as the last resize among the inputs left it. *)
Fixpoint window_size (inputs : list input) (size : Z * Z) : Z * Z :=
  match inputs with
  | [] => size
  | Resize w h :: rest => window_size rest (w, h)
  | _ :: rest => window_size rest size
  end.

(** [0, step, 2 * step, ...] below [bound]. *)
Definition multiples (bound step : Z) : list Z :=
  map (fun k => step * Z.of_nat k)
      (List.seq 0 (Z.to_nat ((bound + step - 1) / step))).

(** The rates between consecutive timestamps, the first one measured from
    [prev]. *)
Fixpoint pair_rates (prev : number) (ts : list number) : list number :=
  match ts with
  | [] => []
  | t :: rest => (1 / ((t - prev) / 1000))%float :: pair_rates t rest
  end.

(** The horizontal position of index [zi] when the last index is [zn1], on
    the overlay of the program, and the check that it and the next one are
    in order and inside the overlay. *)
Definition x_of (zn1 zi : Z) : number := (of_Z zi / of_Z zn1 * 200)%float.

Definition x_ordered (zn1 zi : Z) : bool :=
  (0 <=? x_of zn1 zi)%float
  && (x_of zn1 zi <? x_of zn1 (zi + 1))%float
  && (x_of zn1 (zi + 1) <=? 200)%float.

(** [P (n - 1) zi] for every [n] of [ns] and each of the first [n - 1]
    indices [zi] of [zs]. *)
Definition check_pairs (P : Z -> Z -> bool) (zs : list Z) (ns : list nat) : bool :=
  forallb (fun n => let zn1 := Z.of_nat n - 1 in
                    forallb (P zn1) (firstn (n - 1) zs)) ns.

(** The text of the counter read back as a number. *)
Definition parse_count (s : string) : option Z :=
  option_map Z.of_int (NilZero.int_of_string s).

(** ** Proof automation *)

(** Runs the commands that are not loops over unknown data. *)
Ltac run_cmds :=
  cbn [seq clearRect fillRect stroke fillText set_fillStyle set_strokeStyle set_font
       beginPath moveTo lineTo add_path skip forEach forEach_from targetFPS
       strokeStyle fillStyle font path fst snd app].

(** * Part III: properties *)

(** ** The model on concrete inputs *)

Example Math_min_max_tests :
  map (fun '(x, y) => (Math_min x y, Math_max x y))
      [(1, 2); (2, 1); (0, neg_zero); (neg_zero, 0); (nan, 1); (1, nan);
       (infinity, 200); (neg_infinity, 15); (7, 7)]%float
  = [(1, 2); (1, 2); (neg_zero, 0); (neg_zero, 0); (nan, nan); (nan, nan);
     (200, infinity); (neg_infinity, 15); (7, 7)]%float.
Proof. vm_compute. reflexivity. Qed.

Example Math_round_tests :
  map (fun x => Math_round (Num x))
      [2.5; -2.5; 0.49999999999999994; -0.2; 59.94; 1e300; -3.7; infinity;
       0.5; -0.5; -0.50001]%float
  = [3; -2; 0; neg_zero; 60; 1e300; -4; infinity; 1; neg_zero; -1]%float.
Proof. vm_compute. reflexivity. Qed.

Example three_frames :
  let g := fst (run [Frame 1000; Frame 1016.5; ClickPlus; Frame 1033] (main 800 600)) in
  fpsArray g = [infinity; 1 / ((1016.5 - 1000) / 1000); 1 / ((1033 - 1016.5) / 1000)]%float /\
  renderCount g = 2 /\ countDisplay g = "2" /\ lastTime g = 1033%float.
Proof. vm_compute. repeat split; reflexivity. Qed.

Example grid_200_by_100 :
  length (grid 200 100) = 30%nat /\
  firstn 4 (grid 200 100) = [MoveTo 0 0; LineTo 0 100; MoveTo 20 0; LineTo 20 100] /\
  skipn 28 (grid 200 100) = [MoveTo 0 80; LineTo 200 80].
Proof. vm_compute. repeat split; reflexivity. Qed.

(** ** Facts about binary64 arithmetic *)

Module FloatFacts.

Lemma ltb_leb (x y : float) : (x <? y)%float = true -> (x <=? y)%float = true.
Proof.
  rewrite ltb_spec, leb_spec. unfold SFltb, SFleb.
  destruct (SFcompare (Prim2SF x) (Prim2SF y)) as [[ | | ]|]; congruence.
Qed.

(** A finite number is a zero or has a mantissa and an exponent. *)
Lemma finite_cases (x : float) :
  is_finite x = true ->
  (exists s, Prim2SF x = S754_zero s) \/
  (exists s m e, Prim2SF x = S754_finite s m e).
Proof.
  unfold is_finite, is_nan, is_infinity. intros H.
  apply negb_true_iff, orb_false_iff in H. destruct H as [Hn Hi].
  rewrite eqb_spec in Hn, Hi. rewrite abs_spec in Hi.
  destruct (Prim2SF x) as [s | s | | s m e] eqn:E.
  - left. now exists s.
  - exfalso. vm_compute in Hi. discriminate.
  - exfalso. vm_compute in Hn. discriminate.
  - right. now exists s, m, e.
Qed.

(** [t - t] is [+0] for every finite [t]. *)
Lemma sub_diag (t : float) : is_finite t = true -> (t - t)%float = zero.
Proof.
  intros H. apply Prim2SF_inj. rewrite sub_spec.
  destruct (finite_cases t H) as [[s E] | (s & m & e & E)]; rewrite E.
  - destruct s; reflexivity.
  - unfold SF64sub, SFsub. rewrite Z.sub_diag. reflexivity.
Qed.

(** Only [+0] and [-0] compare equal to zero. *)
Lemma is_zero_cases (x : float) : is_zero x = true -> x = zero \/ x = neg_zero.
Proof.
  unfold is_zero. rewrite eqb_spec. intros H.
  assert (E : exists s, Prim2SF x = S754_zero s).
  { destruct (Prim2SF x) as [s | s | | s m e].
    - now exists s.
    - destruct s; vm_compute in H; discriminate.
    - vm_compute in H; discriminate.
    - destruct s; vm_compute in H; discriminate. }
  destruct E as [s E].
  rewrite <- (SF2Prim_Prim2SF x), E. destruct s; [right | left]; reflexivity.
Qed.

(** The reciprocal of a zero is an infinity. *)
Lemma reciprocal_of_zero (x : float) :
  is_zero x = true ->
  (x = zero /\ (1 / x)%float = infinity) \/
  (x = neg_zero /\ (1 / x)%float = neg_infinity).
Proof.
  intros Hz. destruct (is_zero_cases x Hz) as [-> | ->];
    [left | right]; split; reflexivity.
Qed.

(** *** No operation of a tick yields [NaN] from finite timestamps

    Subtraction and division round a quotient or a difference whose mantissa
    is not negative, and rounding keeps it so. *)

Lemma shr_1_nonneg mrs : 0 <= shr_m mrs -> 0 <= shr_m (shr_1 mrs).
Proof.
  destruct mrs as [m r s]. cbn [shr_m]. intros Hm.
  destruct m as [| p | p]; [| destruct p | lia]; cbn; lia.
Qed.

Lemma iter_pos_invariant {A} (P : A -> Prop) (f : A -> A) :
  (forall x, P x -> P (f x)) -> forall p x, P x -> P (iter_pos f p x).
Proof.
  intros Hf. induction p as [p IH | p IH |]; intros x Hx; cbn [iter_pos]; auto.
Qed.

Lemma shr_nonneg mrs e n : 0 <= shr_m mrs -> 0 <= shr_m (fst (shr mrs e n)).
Proof.
  intros Hm. unfold shr. destruct n as [| p | p]; cbn [fst]; try assumption.
  apply (iter_pos_invariant (fun r => 0 <= shr_m r)); [apply shr_1_nonneg | assumption].
Qed.

Lemma shr_fexp_nonneg m e l :
  0 <= m -> 0 <= shr_m (fst (shr_fexp prec emax m e l)).
Proof.
  intros Hm. unfold shr_fexp. apply shr_nonneg.
  destruct l as [| [ | | ]]; exact Hm.
Qed.

Lemma round_nearest_even_nonneg m l : 0 <= m -> 0 <= round_nearest_even m l.
Proof.
  intros Hm. unfold round_nearest_even.
  destruct l as [| [ | | ]]; try assumption; [destruct (Z.even m) |]; lia.
Qed.

Lemma binary_round_aux_not_nan sx mx ex lx :
  0 <= mx -> binary_round_aux prec emax sx mx ex lx <> S754_nan.
Proof.
  intros Hm. unfold binary_round_aux.
  pose proof (shr_fexp_nonneg mx ex lx Hm) as H1.
  destruct (shr_fexp prec emax mx ex lx) as [mrs' e']. cbn [fst] in H1.
  pose proof (shr_fexp_nonneg _ e' loc_Exact
                (round_nearest_even_nonneg _ (loc_of_shr_record mrs') H1)) as H2.
  destruct (shr_fexp prec emax _ e' loc_Exact) as [mrs'' e'']. cbn [fst] in H2.
  destruct (shr_m mrs'') as [| p | p]; [discriminate | | lia].
  destruct (e'' <=? emax - prec); discriminate.
Qed.

Lemma binary_normalize_not_nan m e szero :
  binary_normalize prec emax m e szero <> S754_nan.
Proof.
  unfold binary_normalize, binary_round.
  destruct m as [| p | p]; [discriminate | |];
    destruct (shl_align _ _ _) as [mz ez]; apply binary_round_aux_not_nan; lia.
Qed.

Lemma SFsub_not_nan x y :
  SFfinite x -> SFfinite y -> SF64sub x y <> S754_nan.
Proof.
  unfold SF64sub, SFsub.
  destruct x as [sx | sx | | sx mx ex], y as [sy | sy | | sy my ey];
    cbn [SFfinite]; try contradiction; intros _ _;
    try discriminate.
  - destruct sx, sy; discriminate.
  - apply binary_normalize_not_nan.
Qed.

Lemma div_eucl_nonneg a b : 0 <= a -> 0 < b -> 0 <= fst (Z.div_eucl a b).
Proof.
  intros Ha Hb. change (fst (Z.div_eucl a b)) with (a / b). apply Z.div_pos; lia.
Qed.

Lemma SFdiv_core_nonneg m1 e1 m2 e2 :
  0 <= fst (fst (SFdiv_core_binary prec emax (Zpos m1) e1 (Zpos m2) e2)).
Proof.
  unfold SFdiv_core_binary. cbv zeta.
  match goal with |- context [Z.div_eucl ?a ?b] =>
    pose proof (div_eucl_nonneg a b) as Hq; destruct (Z.div_eucl a b) as [q r] end.
  cbn [fst] in *. apply Hq; [| lia].
  match goal with |- 0 <= match ?s with _ => _ end => destruct s eqn:Es end; try lia.
  apply Z.shiftl_nonneg. lia.
Qed.

Lemma SFdiv_finite_not_nan sx mx ex sy my ey :
  SF64div (S754_finite sx mx ex) (S754_finite sy my ey) <> S754_nan.
Proof.
  unfold SF64div, SFdiv.
  pose proof (SFdiv_core_nonneg mx ex my ey) as Hq.
  destruct (SFdiv_core_binary prec emax (Zpos mx) ex (Zpos my) ey) as [[mz ez] lz].
  cbn [fst] in Hq. now apply binary_round_aux_not_nan.
Qed.

Lemma SFcompare_refl x : x <> S754_nan -> SFcompare x x = Some Eq.
Proof.
  destruct x as [s | s | | s m e]; intros Hx; try congruence; cbn [SFcompare].
  - reflexivity.
  - destruct s; reflexivity.
  - destruct s; rewrite Z.compare_refl, Pos.compare_cont_refl; reflexivity.
Qed.

Lemma is_nan_spec (x : float) : is_nan x = false <-> Prim2SF x <> S754_nan.
Proof.
  unfold is_nan. rewrite eqb_spec. unfold SFeqb. split.
  - intros H E. rewrite E in H. cbn in H. discriminate.
  - intros H. rewrite (SFcompare_refl _ H). reflexivity.
Qed.

Lemma finite_SFfinite (x : float) : is_finite x = true -> SFfinite (Prim2SF x).
Proof.
  unfold is_finite, is_nan, is_infinity. intros H.
  apply negb_true_iff, orb_false_iff in H. destruct H as [Hn Hi].
  rewrite eqb_spec in Hn, Hi. rewrite abs_spec in Hi.
  destruct (Prim2SF x) as [s | s | | s m e]; cbn [SFfinite]; auto.
  - vm_compute in Hi. discriminate.
  - vm_compute in Hn. discriminate.
Qed.

Lemma sub_not_nan (a b : float) :
  is_finite a = true -> is_finite b = true -> is_nan (a - b) = false.
Proof.
  intros Ha Hb. apply is_nan_spec. rewrite sub_spec.
  apply SFsub_not_nan; now apply finite_SFfinite.
Qed.

Lemma div_1000_not_nan (x : float) : is_nan x = false -> is_nan (x / 1000) = false.
Proof.
  rewrite !is_nan_spec, div_spec. intros Hx.
  change (Prim2SF 1000) with (S754_finite false 8796093022208000 (-43)).
  destruct (Prim2SF x) as [s | s | | s m e]; try congruence.
  - discriminate.
  - discriminate.
  - apply SFdiv_finite_not_nan.
Qed.

Lemma reciprocal_not_nan (x : float) : is_nan x = false -> is_nan (1 / x) = false.
Proof.
  rewrite !is_nan_spec, div_spec. intros Hx.
  change (Prim2SF 1) with (S754_finite false 4503599627370496 (-52)).
  destruct (Prim2SF x) as [s | s | | s m e]; try congruence.
  - discriminate.
  - discriminate.
  - apply SFdiv_finite_not_nan.
Qed.

End FloatFacts.

(** ** The FPS history *)

Section History.

Lemma MAX_FPS_SAMPLES_eq : MAX_FPS_SAMPLES = 1000%nat.
Proof. reflexivity. Qed.

Lemma tl_skipn {A} (l : list A) : tl l = skipn 1 l.
Proof. destruct l; reflexivity. Qed.

Lemma length_snoc {A} (l : list A) (x : A) : length (l ++ [x]) = S (length l).
Proof. rewrite length_app. cbn [length]. lia. Qed.

(** One sample more, and the newest [MAX_FPS_SAMPLES] of them kept. *)
Lemma track_spec (fps : number) (arr : list number) :
  (length arr <= MAX_FPS_SAMPLES)%nat ->
  track fps arr = skipn (length (arr ++ [fps]) - MAX_FPS_SAMPLES) (arr ++ [fps]).
Proof.
  intros Hlen. unfold track. cbv zeta.
  pose proof (length_snoc arr fps) as L.
  destruct (Nat.ltb_spec MAX_FPS_SAMPLES (length (arr ++ [fps]))) as [Hlt | Hge].
  - replace (length (arr ++ [fps]) - MAX_FPS_SAMPLES)%nat with 1%nat by lia.
    apply tl_skipn.
  - replace (length (arr ++ [fps]) - MAX_FPS_SAMPLES)%nat with 0%nat by lia.
    reflexivity.
Qed.

Lemma track_length (fps : number) (arr : list number) :
  (length arr <= MAX_FPS_SAMPLES)%nat ->
  length (track fps arr) = Nat.min MAX_FPS_SAMPLES (S (length arr)).
Proof.
  intros Hlen. rewrite track_spec by assumption.
  rewrite length_skipn, length_snoc. lia.
Qed.

Lemma track_bounded (fps : number) (arr : list number) :
  (length arr <= MAX_FPS_SAMPLES)%nat ->
  (length (track fps arr) <= MAX_FPS_SAMPLES)%nat.
Proof. intros H. rewrite track_length by assumption. lia. Qed.

(** The sample pushed is the newest entry, evicted or not. *)
Lemma track_last (fps d : number) (arr : list number) :
  last (track fps arr) d = fps.
Proof.
  unfold track. cbv zeta. destruct arr as [| a arr].
  - reflexivity.
  - destruct (MAX_FPS_SAMPLES <? length ((a :: arr) ++ [fps]))%nat.
    + cbn [app tl]. apply last_last.
    + apply last_last.
Qed.

Lemma record_all_cons (x : number) (xs arr : list number) :
  record_all (x :: xs) arr = record_all xs (track x arr).
Proof. reflexivity. Qed.

Lemma record_all_app (xs ys arr : list number) :
  record_all (xs ++ ys) arr = record_all ys (record_all xs arr).
Proof. apply fold_left_app. Qed.

Lemma record_all_spec (xs arr : list number) :
  (length arr <= MAX_FPS_SAMPLES)%nat ->
  record_all xs arr = skipn (length (arr ++ xs) - MAX_FPS_SAMPLES) (arr ++ xs).
Proof.
  revert arr. induction xs as [| x xs IH]; intros arr Hlen.
  - cbn [record_all fold_left]. rewrite app_nil_r.
    replace (length arr - MAX_FPS_SAMPLES)%nat with 0%nat by lia. reflexivity.
  - rewrite record_all_cons, IH by (now apply track_bounded).
    rewrite track_spec by assumption.
    set (k := (length (arr ++ [x]) - MAX_FPS_SAMPLES)%nat).
    assert (Hk : (k <= length (arr ++ [x]))%nat) by (unfold k; lia).
    replace (arr ++ x :: xs) with ((arr ++ [x]) ++ xs)
      by (rewrite <- app_assoc; reflexivity).
    assert (E : skipn k (arr ++ [x]) ++ xs = skipn k ((arr ++ [x]) ++ xs)).
    { rewrite (skipn_app k (arr ++ [x]) xs).
      replace (k - length (arr ++ [x]))%nat with 0%nat by lia.
      reflexivity. }
    rewrite E, skipn_skipn. f_equal.
    rewrite length_skipn, !length_app. unfold k. rewrite length_app. lia.
Qed.

(** The history just after a push ends with the sample pushed. *)
Lemma track_snoc (fps : number) (arr : list number) :
  exists pre, track fps arr = pre ++ [fps].
Proof.
  unfold track. cbv zeta. destruct arr as [| a arr].
  - exists []. reflexivity.
  - destruct (MAX_FPS_SAMPLES <? length ((a :: arr) ++ [fps]))%nat.
    + exists arr. reflexivity.
    + exists (a :: arr). reflexivity.
Qed.

(** Reading the last element of an array that has one. *)
Lemma index_last (pre : list number) (x : number) :
  index (pre ++ [x]) (Z.of_nat (length (pre ++ [x])) - 1) = Num x.
Proof.
  unfold index. rewrite length_snoc.
  replace (Z.of_nat (S (length pre)) - 1) with (Z.of_nat (length pre)) by lia.
  destruct (Z.ltb_spec (Z.of_nat (length pre)) 0) as [Hneg | _]; [lia |].
  rewrite Nat2Z.id, nth_error_app2, Nat.sub_diag by lia. reflexivity.
Qed.

End History.

(** ** What every state of a run satisfies *)

Section Invariant.

(** What [renderLoop] leaves in the variables. *)
Lemma renderLoop_state (time : number) (g : globals) :
  let g' := fst (renderLoop time g) in
  lastTime g' = time /\
  renderCount g' = renderCount g /\
  fpsArray g' = track (1 / elapsedTimeSec time g)%float (fpsArray g) /\
  canvas_width g' = canvas_width g /\
  canvas_height g' = canvas_height g /\
  fpsCanvas_width g' = fpsCanvas_width g /\
  fpsCanvas_height g' = fpsCanvas_height g /\
  countDisplay g' = countDisplay g.
Proof.
  unfold renderLoop.
  destruct (drawFPSGraph _ _ _ _) as [ctx' painted]. cbn.
  repeat split; reflexivity.
Qed.

Lemma main_inv (innerWidth innerHeight : Z) : Inv (main innerWidth innerHeight).
Proof. constructor; cbn; try reflexivity; lia. Qed.

Lemma step_inv (i : input) (g : globals) : Inv g -> Inv (fst (step i g)).
Proof.
  intros [Hc Hd Hh Hw He]. destruct i as [time | | | w h]; cbn [step fst].
  - destruct (renderLoop_state time g) as (_ & Ec & Ea & _ & _ & Ew & Eh & Ed).
    constructor.
    + rewrite Ec. exact Hc.
    + rewrite Ed, Ec. exact Hd.
    + rewrite Ea. now apply track_bounded.
    + rewrite Ew. exact Hw.
    + rewrite Eh. exact He.
  - constructor; cbn; try assumption; try reflexivity. lia.
  - constructor; cbn; try assumption; try reflexivity. lia.
  - constructor; cbn; assumption.
Qed.

Lemma run_cons (i : input) (rest : list input) (g : globals) :
  run (i :: rest) g =
  (fst (run rest (fst (step i g))), snd (step i g) ++ snd (run rest (fst (step i g)))).
Proof.
  cbn [run]. destruct (step i g) as [g1 o1]. cbn [fst snd].
  destruct (run rest g1) as [g2 o2]. reflexivity.
Qed.

Lemma run_inv (inputs : list input) (g : globals) :
  Inv g -> Inv (fst (run inputs g)).
Proof.
  revert g. induction inputs as [| i rest IH]; intros g Hg.
  - exact Hg.
  - rewrite run_cons. cbn [fst]. apply IH. now apply step_inv.
Qed.

Lemma reachable_inv (g : globals) : reachable g -> Inv g.
Proof.
  intros (w & h & inputs & ->). apply run_inv, main_inv.
Qed.

Lemma main_reachable (innerWidth innerHeight : Z) :
  reachable (main innerWidth innerHeight).
Proof. exists innerWidth, innerHeight, []. reflexivity. Qed.

(** Only frames touch the history, and each records its rate. *)
Lemma step_history (i : input) (g : globals) :
  fpsArray (fst (step i g)) =
  record_all (rates [i] g) (fpsArray g).
Proof.
  destruct i as [time | | | w h]; try reflexivity.
  cbn [step rates app record_all fold_left].
  now destruct (renderLoop_state time g) as (_ & _ & Ea & _).
Qed.

Lemma run_history (inputs : list input) (g : globals) :
  fpsArray (fst (run inputs g)) = record_all (rates inputs g) (fpsArray g).
Proof.
  revert g. induction inputs as [| i rest IH]; intros g.
  - reflexivity.
  - rewrite run_cons. cbn [fst]. rewrite IH, step_history.
    cbn [rates]. rewrite app_nil_r, <- record_all_app. reflexivity.
Qed.

(** The rate of a tick with a finite timestamp is a number. *)
Lemma rate_not_nan (time : number) (g : globals) :
  is_finite (lastTime g) = true ->
  is_finite time = true ->
  is_nan (1 / elapsedTimeSec time g) = false.
Proof.
  intros Hl Ht. unfold elapsedTimeSec, elapsedTimeMs, startTime.
  apply FloatFacts.reciprocal_not_nan, FloatFacts.div_1000_not_nan.
  destruct (falsy (lastTime g)); now apply FloatFacts.sub_not_nan.
Qed.

Lemma track_Forall (P : number -> Prop) (fps : number) (arr : list number) :
  P fps -> Forall P arr -> Forall P (track fps arr).
Proof.
  intros Hfps Harr. unfold track. cbv zeta.
  assert (Hall : Forall P (arr ++ [fps]))
    by (apply Forall_app; split; [assumption | constructor; [assumption | constructor]]).
  destruct (MAX_FPS_SAMPLES <? length (arr ++ [fps]))%nat; [| exact Hall].
  destruct (arr ++ [fps]) as [| a rest]; [constructor |].
  cbn [tl]. now inversion Hall.
Qed.

Lemma main_numbers (innerWidth innerHeight : Z) : Numbers (main innerWidth innerHeight).
Proof. constructor; [reflexivity | constructor]. Qed.

Lemma run_numbers (inputs : list input) (g : globals) :
  finite_frames inputs -> Numbers g -> Numbers (fst (run inputs g)).
Proof.
  revert g. induction inputs as [| i rest IH]; intros g Hfin Hg; [exact Hg |].
  rewrite run_cons. cbn [fst].
  apply IH; [intros t Ht; apply Hfin; now right |].
  destruct Hg as [Hl Hh]. destruct i as [time | | | w h]; cbn [step fst];
    try (constructor; assumption).
  assert (Ht : is_finite time = true) by (apply Hfin; now left).
  destruct (renderLoop_state time g) as (El & _ & Ea & _).
  constructor.
  - rewrite El. exact Ht.
  - rewrite Ea. apply track_Forall; [now apply rate_not_nan | exact Hh].
Qed.

End Invariant.

(** ** The calls of one tick *)

Section Tick.

(** The draw loop has fuel enough: it ends because the counter has reached
    [renderCount]. *)
Lemma draw_loop_repeat (fuel : nat) (i renderCount : Z) :
  (Z.to_nat (renderCount - i) <= fuel)%nat ->
  draw_loop fuel i renderCount = repeat artboard_draw (Z.to_nat (renderCount - i)).
Proof.
  revert i. induction fuel as [| fuel IH]; intros i Hfuel.
  - replace (Z.to_nat (renderCount - i)) with 0%nat by lia. reflexivity.
  - cbn [draw_loop]. destruct (Z.ltb_spec i renderCount) as [Hlt | Hge].
    + rewrite IH by lia.
      replace (Z.to_nat (renderCount - i)) with (S (Z.to_nat (renderCount - (i + 1))))
        by lia.
      reflexivity.
    + replace (Z.to_nat (renderCount - i)) with 0%nat by lia. reflexivity.
Qed.

Lemma renderLoop_events (time : number) (g : globals) :
  snd (renderLoop time g) =
  map Overlay (overlay_of time g)
  ++ [renderer_clear;
      stateMachine_advance (elapsedTimeSec time g);
      artboard_advance (elapsedTimeSec time g);
      renderer_save;
      renderer_align contain center 0 0 (canvas_width g) (canvas_height g)]
  ++ repeat artboard_draw (Z.to_nat (renderCount g))
  ++ [renderer_restore; renderer_flush; resolveAnimationFrame;
      requestAnimationFrame_renderLoop].
Proof.
  unfold renderLoop, overlay_of.
  destruct (drawFPSGraph _ _ _ _) as [ctx' painted]. cbn [snd].
  rewrite draw_loop_repeat by lia. rewrite Z.sub_0_r. reflexivity.
Qed.

Lemma count_app (p : event -> bool) (l1 l2 : list event) :
  count p (l1 ++ l2) = (count p l1 + count p l2)%nat.
Proof. unfold count. rewrite filter_app, length_app. reflexivity. Qed.

Lemma count_overlay (p : event -> bool) (ps : list paint) :
  (forall x, p (Overlay x) = false) -> count p (map Overlay ps) = 0%nat.
Proof.
  intros Hp. unfold count. induction ps as [| x ps IH]; [reflexivity |].
  cbn [map filter]. rewrite Hp. exact IH.
Qed.

Lemma count_draws (p : event -> bool) (k : nat) :
  count p (repeat artboard_draw k) = if p artboard_draw then k else 0%nat.
Proof.
  unfold count. induction k as [| k IH]; cbn [repeat filter].
  - destruct (p artboard_draw); reflexivity.
  - destruct (p artboard_draw); cbn [length]; rewrite IH; reflexivity.
Qed.

(** How often a kind of call that is not an overlay paint occurs in the log
    of one tick. *)
Lemma renderLoop_count (p : event -> bool) (time : number) (g : globals) :
  (forall x, p (Overlay x) = false) ->
  count p (snd (renderLoop time g)) =
  (count p [renderer_clear;
            stateMachine_advance (elapsedTimeSec time g);
            artboard_advance (elapsedTimeSec time g);
            renderer_save;
            renderer_align contain center 0 0 (canvas_width g) (canvas_height g)]
   + ((if p artboard_draw then Z.to_nat (renderCount g) else 0)
      + count p [renderer_restore; renderer_flush; resolveAnimationFrame;
                 requestAnimationFrame_renderLoop]))%nat.
Proof.
  intros Hp. rewrite renderLoop_events, !count_app, count_overlay by assumption.
  rewrite count_draws. reflexivity.
Qed.

(** One request for the next frame per frame delivered. *)
Lemma run_frames_requests (times : list number) (g : globals) :
  count is_request (snd (run (map Frame times) g)) = length times.
Proof.
  revert g. induction times as [| t times IH]; intros g.
  - reflexivity.
  - cbn [map]. rewrite run_cons. cbn [snd step length].
    rewrite count_app, IH, renderLoop_count by reflexivity.
    reflexivity.
Qed.

(** On a tick that takes the first-tick branch no time has elapsed. *)
Lemma first_tick_elapsed (time : number) (g : globals) :
  falsy (lastTime g) = true ->
  is_finite time = true ->
  startTime time g = time /\ elapsedTimeSec time g = zero.
Proof.
  intros Hf Ht. unfold elapsedTimeSec, elapsedTimeMs, startTime.
  rewrite Hf, (FloatFacts.sub_diag time Ht). split; reflexivity.
Qed.

End Tick.

(** ** The overlay *)

Section Overlay.

Lemma seq_run (a b : cmd) (c : context) :
  seq a b c = (fst (b (fst (a c))), snd (a c) ++ snd (b (fst (a c)))).
Proof.
  unfold seq. destruct (a c) as [c1 o1]. cbn [fst snd].
  destruct (b c1) as [c2 o2]. reflexivity.
Qed.

Lemma add_path_nil (c : context) : add_path [] c = c.
Proof. destruct c. unfold add_path. cbn. rewrite app_nil_r. reflexivity. Qed.

Lemma add_path_app (s1 s2 : list segment) (c : context) :
  add_path s2 (add_path s1 c) = add_path (s1 ++ s2) c.
Proof. unfold add_path. cbn. rewrite app_assoc. reflexivity. Qed.

(** A move followed by a line, as the rounds of the two grid loops are. *)
Lemma moveTo_lineTo (x1 y1 x2 y2 : number) (c : context) :
  (moveTo x1 y1 ;; lineTo x2 y2)%cmd c = (add_path [MoveTo x1 y1; LineTo x2 y2] c, []).
Proof. rewrite seq_run. cbn. now rewrite add_path_app. Qed.

Lemma for_step_run (segs : Z -> list segment) (body : Z -> cmd)
      (fuel : nat) (i bound step : Z) (c : context) :
  (forall j c', body j c' = (add_path (segs j) c', [])) ->
  for_step fuel i bound step body c =
  (add_path (for_step_path fuel i bound step segs) c, []).
Proof.
  intros Hbody. revert i c. induction fuel as [| fuel IH]; intros i c.
  - cbn. now rewrite add_path_nil.
  - cbn [for_step for_step_path]. destruct (i <? bound).
    + rewrite seq_run, Hbody, IH. cbn [fst snd]. now rewrite add_path_app.
    + cbn. now rewrite add_path_nil.
Qed.

(** A [for] loop with a positive step has fuel enough once the fuel covers
    the distance to the bound: more fuel changes nothing. *)
Lemma for_step_fuel (body : Z -> cmd) (fuel extra : nat) (i bound step : Z) :
  0 < step ->
  (Z.to_nat (bound - i) <= fuel)%nat ->
  for_step (fuel + extra) i bound step body = for_step fuel i bound step body.
Proof.
  intros Hstep. revert i. induction fuel as [| fuel IH]; intros i Hfuel.
  - destruct extra as [| extra]; [reflexivity |].
    cbn [Nat.add for_step].
    destruct (Z.ltb_spec i bound) as [Hlt | Hge]; [lia | reflexivity].
  - cbn [Nat.add for_step].
    destruct (Z.ltb_spec i bound) as [Hlt | Hge]; [| reflexivity].
    rewrite IH by lia. reflexivity.
Qed.

Lemma forEach_run {A} (seg : A -> nat -> segment) (body : A -> nat -> cmd)
      (xs : list A) (i : nat) (c : context) :
  (forall x j c', body x j c' = (add_path [seg x j] c', [])) ->
  forEach_from i xs body c = (add_path (forEach_path i xs seg) c, []).
Proof.
  intros Hbody. revert i c. induction xs as [| x xs IH]; intros i c.
  - cbn. now rewrite add_path_nil.
  - cbn [forEach_from forEach_path].
    rewrite seq_run, Hbody, IH. cbn [fst snd]. now rewrite add_path_app.
Qed.

Lemma forEach_path_nth {A} (seg : A -> nat -> segment) (xs : list A) (k i : nat) (x : A) :
  nth_error xs i = Some x ->
  nth_error (forEach_path k xs seg) i = Some (seg x (k + i)%nat).
Proof.
  revert k i. induction xs as [| y xs IH]; intros k [| i] Hx; try discriminate.
  - cbn in Hx. injection Hx as ->. cbn. now rewrite Nat.add_0_r.
  - cbn in Hx. cbn [forEach_path nth_error].
    rewrite (IH (S k) i Hx). f_equal. f_equal. lia.
Qed.

Lemma seq_pair (a b : cmd) (c c1 : context) (o1 : list paint) :
  a c = (c1, o1) ->
  seq a b c = (let (c2, o2) := b c1 in (c2, o1 ++ o2)).
Proof. intros E. unfold seq. rewrite E. reflexivity. Qed.

(** [drawFPSGraph] on any context: what it paints and what it leaves. *)
Lemma drawFPSGraph_run (W H : Z) (samples : list number) (c : context) :
  drawFPSGraph W H samples c = (context_after W H samples, overlay W H samples).
Proof.
  unfold drawFPSGraph. cbv zeta. run_cmds.
  erewrite seq_pair;
    [| apply (for_step_run (fun i => [MoveTo (of_Z i) 0; LineTo (of_Z i) (of_Z H)]));
       intros; apply moveTo_lineTo].
  erewrite seq_pair;
    [| apply (for_step_run (fun i => [MoveTo 0 (of_Z i); LineTo (of_Z W) (of_Z i)]));
       intros; apply moveTo_lineTo].
  run_cmds.
  unfold overlay, context_after, polyline, grid.
  destruct (1 <? length samples)%nat.
  - erewrite seq_pair;
      [| apply (forEach_run
                  (fun fps i => LineTo (xPosition (of_Z W) (length samples) i)
                                       (yPosition (of_Z H) (clamp fps))));
         intros; reflexivity].
    run_cmds. reflexivity.
  - run_cmds. reflexivity.
Qed.

(** The context a tick leaves to the next one. *)
Lemma renderLoop_context (time : number) (g : globals) :
  fpsContext (fst (renderLoop time g)) =
  context_after (fpsCanvas_width g) (fpsCanvas_height g)
    (track (1 / elapsedTimeSec time g)%float (fpsArray g)).
Proof.
  unfold renderLoop. rewrite drawFPSGraph_run. reflexivity.
Qed.

(** A sample that is a number is mapped into the range of the graph. *)
Lemma clamp_range (fps : number) :
  is_nan fps = false ->
  (15 <=? clamp fps)%float = true /\ (clamp fps <=? 200)%float = true.
Proof.
  intros Hnan.
  assert (Hmin : Math_min 200 fps = 200%float \/
                 (Math_min 200 fps = fps /\ (fps <? 200)%float = true)).
  { unfold Math_min. rewrite Hnan. change (is_nan 200) with false. cbn [orb].
    destruct (200 <? fps)%float; [left; reflexivity |].
    destruct (fps <? 200)%float; [right; split; reflexivity | left; reflexivity]. }
  unfold clamp. destruct Hmin as [-> | [-> Hlt]].
  - vm_compute. split; reflexivity.
  - unfold Math_max. rewrite Hnan. change (is_nan 15) with false. cbn [orb].
    destruct (15 <? fps)%float eqn:E15.
    + split; apply FloatFacts.ltb_leb; assumption.
    + destruct (fps <? 15)%float; vm_compute; split; reflexivity.
Qed.

End Overlay.

(** * Part IV: the claims *)

(** C1, as the code has it.  [renderLoop] has no guard on the elapsed time:
    every tick pushes [1 / elapsedTimeSec].  On a tick whose elapsed time is
    zero the sample pushed is an infinity, it becomes the newest entry of the
    history, and the history grows by one entry unless it is full. *)
Theorem zero_elapsed_records_infinity (time : number) (g : globals) :
  reachable g ->
  is_zero (elapsedTimeSec time g) = true ->
  let sample := (1 / elapsedTimeSec time g)%float in
  let history := fpsArray (fst (renderLoop time g)) in
  is_infinity sample = true /\
  is_finite sample = false /\
  history = track sample (fpsArray g) /\
  last history 0%float = sample /\
  length history = Nat.min 1000 (S (length (fpsArray g))).
Proof.
  intros Hr Hz sample history.
  destruct (renderLoop_state time g) as (_ & _ & Ea & _).
  destruct (reachable_inv g Hr) as [_ _ Hlen _ _].
  assert (Hs : sample = infinity \/ sample = neg_infinity).
  { subst sample.
    destruct (FloatFacts.reciprocal_of_zero _ Hz) as [[_ ->] | [_ ->]]; auto. }
  split; [destruct Hs as [-> | ->]; reflexivity |].
  split; [destruct Hs as [-> | ->]; reflexivity |].
  subst history. rewrite Ea. fold sample.
  split; [reflexivity |]. split; [apply track_last |].
  rewrite <- MAX_FPS_SAMPLES_eq. now apply track_length.
Qed.

Lemma zero_elapsed_records_infinity_witness :
  fpsArray (fst (renderLoop 16.5 (main 800 600)))
  = track infinity (fpsArray (main 800 600)).
Proof.
  destruct (zero_elapsed_records_infinity 16.5 (main 800 600)) as (_ & _ & E & _).
  - apply main_reachable.
  - reflexivity.
  - exact E.
Defined.

(** C1 as stated fails: the first tick of a run has no elapsed time, and the
    history that was empty holds one entry after it, which is not a finite
    number. *)
Lemma zero_elapsed_tick_is_recorded :
  let g := main 800 600 in
  let g' := fst (renderLoop 16.5 g) in
  is_zero (elapsedTimeSec 16.5 g) = true /\
  fpsArray g = [] /\
  fpsArray g' = [infinity] /\
  length (fpsArray g') <> length (fpsArray g) /\
  Forall (fun fps => is_finite fps = false) (fpsArray g').
Proof.
  vm_compute. repeat split; try reflexivity; try discriminate.
  constructor; [reflexivity | constructor].
Qed.

(** C2.  Whatever samples are recorded into the empty history, the history
    never holds more than 1000 of them (after any number of the calls), and
    it holds the newest 1000 of them in the order they were recorded, so
    that after more than 1000 calls it is exactly the last 1000 samples.  The
    history of the running program is the one so obtained from the rates of
    its frames. *)
Theorem fps_history_bounded (samples : list number) :
  (forall n, (length (record_all (firstn n samples) []) <= 1000)%nat) /\
  record_all samples [] = skipn (length samples - 1000) samples /\
  ((1000 < length samples)%nat ->
   length (record_all samples []) = 1000%nat /\
   record_all samples [] = rev (firstn 1000 (rev samples))) /\
  (forall innerWidth innerHeight inputs,
     let g := main innerWidth innerHeight in
     fpsArray (fst (run inputs g)) = record_all (rates inputs g) [] /\
     (length (fpsArray (fst (run inputs g))) <= 1000)%nat).
Proof.
  assert (Hnil : (length (@nil number) <= MAX_FPS_SAMPLES)%nat) by (cbn [length]; lia).
  assert (Hall : forall xs, record_all xs [] = skipn (length xs - 1000) xs).
  { intros xs. rewrite record_all_spec by assumption. reflexivity. }
  split; [| split; [| split]].
  - intros n. rewrite Hall, length_skipn. lia.
  - apply Hall.
  - intros Hlong. rewrite Hall. split.
    + rewrite length_skipn. lia.
    + rewrite firstn_rev, rev_involutive. reflexivity.
  - intros w h inputs g. split.
    + apply run_history.
    + rewrite <- MAX_FPS_SAMPLES_eq. apply inv_history, run_inv, main_inv.
Qed.

Example fps_history_1500 :
  let samples := map of_nat (List.seq 1 1500) in
  length (record_all samples []) = 1000%nat /\
  record_all samples [] = map of_nat (List.seq 501 1000).
Proof. vm_compute. split; reflexivity. Qed.

(** C3.  Starting from the initial count 1, after any sequence of clicks on
    the two buttons (and of frames and resizes between them) the render count
    is in [1,100]; a click on [+] sets it to [min(100, count + 1)] and a click
    on [-] to [max(1, count - 1)], so [+] at 100 and [-] at 1 leave every
    variable as it was. *)
Theorem renderCount_clamped (innerWidth innerHeight : Z) (inputs : list input) :
  let g := fst (run inputs (main innerWidth innerHeight)) in
  1 <= renderCount g <= 100 /\
  renderCount (plusBtn_onclick g) = Z.min 100 (renderCount g + 1) /\
  renderCount (minusBtn_onclick g) = Z.max 1 (renderCount g - 1) /\
  (renderCount g = 100 -> plusBtn_onclick g = g) /\
  (renderCount g = 1 -> minusBtn_onclick g = g).
Proof.
  intros g.
  assert (Hg : Inv g) by apply run_inv, main_inv.
  destruct Hg as [Hc Hd _ _ _].
  split; [exact Hc |]. split; [reflexivity |]. split; [reflexivity |].
  destruct g as [lt rc arr cw ch fw fh ctx disp]. cbn in *.
  split; intros ->; unfold plusBtn_onclick, minusBtn_onclick; cbn; rewrite Hd; reflexivity.
Qed.

Example renderCount_scenario :
  let clicks := repeat ClickPlus 99 ++ repeat ClickMinus 150 in
  renderCount (fst (run (repeat ClickPlus 99) (main 800 600))) = 100 /\
  renderCount (fst (run (repeat ClickPlus 120) (main 800 600))) = 100 /\
  renderCount (fst (run clicks (main 800 600))) = 1.
Proof. vm_compute. repeat split; reflexivity. Qed.

(** C4.  On a tick with render count [k] in [1,100], [renderLoop] calls the
    state machine's and the artboard's [advance] once each with the tick's
    elapsed seconds, then, between one [save]/[align] and the matching
    [restore], calls [artboard.draw] exactly [k] times with nothing between
    the draws, and calls [flush] exactly once, after the last draw. *)
Theorem draw_call_cardinality (time : number) (g : globals) (k : nat) :
  renderCount g = Z.of_nat k ->
  (1 <= k <= 100)%nat ->
  let log := snd (renderLoop time g) in
  log = map Overlay (overlay_of time g)
        ++ [renderer_clear;
            stateMachine_advance (elapsedTimeSec time g);
            artboard_advance (elapsedTimeSec time g);
            renderer_save;
            renderer_align contain center 0 0 (canvas_width g) (canvas_height g)]
        ++ repeat artboard_draw k
        ++ [renderer_restore; renderer_flush; resolveAnimationFrame;
            requestAnimationFrame_renderLoop] /\
  count is_draw log = k /\
  count is_stateMachine_advance log = 1%nat /\
  count is_artboard_advance log = 1%nat /\
  count is_flush log = 1%nat.
Proof.
  intros Hk Hrange log. subst log.
  assert (Ek : Z.to_nat (renderCount g) = k) by (rewrite Hk; apply Nat2Z.id).
  split; [rewrite renderLoop_events, Ek; reflexivity |].
  repeat split; rewrite renderLoop_count by reflexivity; rewrite ?Ek; cbn; lia.
Qed.

Lemma draw_call_cardinality_witness :
  let g := fst (run [ClickPlus; ClickPlus] (main 800 600)) in
  count is_draw (snd (renderLoop 16.5 g)) = 3%nat /\
  count is_flush (snd (renderLoop 16.5 g)) = 1%nat.
Proof.
  intros g.
  destruct (draw_call_cardinality 16.5 g 3) as (_ & Hd & _ & _ & Hf).
  - reflexivity.
  - lia.
  - split; [exact Hd | exact Hf].
Defined.

(** C5.  A tick does its work in one fixed order.  The elapsed time is
    taken from the timestamp stored before the tick.  The rate
    [1 / elapsedSec] is appended to the history, which loses its oldest entry
    when it has grown past 1000, so the rate is the newest entry afterwards.
    The overlay is then painted from that updated history: background, grid,
    reference lines, the polyline over the updated history and the readout
    of its newest entry.  Then the scene is advanced by the elapsed time and
    drawn [renderCount] times, and the last call of the tick asks for the
    next frame.  No branch skips that request: the log of every tick ends
    with it, and over any run of frames there are as many requests as
    frames. *)
Theorem tick_order (time : number) (g : globals) (times : list number) :
  let previous := if falsy (lastTime g) then time else lastTime g in
  let elapsedSec := ((time - previous) / 1000)%float in
  let sample := (1 / elapsedSec)%float in
  let pushed := fpsArray g ++ [sample] in
  let history := if (1000 <? length pushed)%nat then tl pushed else pushed in
  let W := fpsCanvas_width g in
  let H := fpsCanvas_height g in
  let painted :=
    [ClearRect 0 0 (of_Z W) (of_Z H);
     FillRect "rgba(0, 0, 0, 0.7)" 0 0 (of_Z W) (of_Z H);
     Stroke "rgba(255, 255, 255, 0.1)" (grid W H)]
    ++ flat_map (reference_line W H) targetFPS
    ++ [Stroke "rgb(0, 255, 0)" (polyline W H history);
        FillText "rgb(255, 255, 255)" "10px monospace"
          [Lit "Current: "; Hole (Math_round (Num sample)); Lit " FPS"] 5 10] in
  (fpsArray (fst (renderLoop time g)) = history /\
   history = track sample (fpsArray g) /\
   last history 0%float = sample /\
   (length (fpsArray g) < 1000 -> history = fpsArray g ++ [sample])%nat /\
   (length (fpsArray g) = 1000 -> history = tl (fpsArray g) ++ [sample])%nat /\
   lastTime (fst (renderLoop time g)) = time /\
   snd (drawFPSGraph W H history (fpsContext g)) = painted /\
   snd (renderLoop time g) =
     map Overlay painted
     ++ [renderer_clear;
         stateMachine_advance elapsedSec;
         artboard_advance elapsedSec;
         renderer_save;
         renderer_align contain center 0 0 (canvas_width g) (canvas_height g)]
     ++ repeat artboard_draw (Z.to_nat (renderCount g))
     ++ [renderer_restore; renderer_flush; resolveAnimationFrame]
     ++ [requestAnimationFrame_renderLoop]) /\
  last (snd (renderLoop time g)) renderer_clear = requestAnimationFrame_renderLoop /\
  count is_request (snd (renderLoop time g)) = 1%nat /\
  count is_request (snd (run (map Frame times) g)) = length times.
Proof.
  intros previous elapsedSec sample pushed history W H painted.
  destruct (renderLoop_state time g) as (Et & _ & Ea & _).
  assert (Hh : history = track sample (fpsArray g)) by reflexivity.
  assert (Hp : snd (drawFPSGraph W H history (fpsContext g)) = painted).
  { rewrite drawFPSGraph_run. cbn [snd]. unfold overlay, painted, readout.
    rewrite Hh. destruct (track_snoc sample (fpsArray g)) as [pre E].
    rewrite E, index_last. reflexivity. }
  split; [| split; [| split]].
  - split; [exact Ea |]. split; [exact Hh |].
    split; [rewrite Hh; apply track_last |].
    split; [| split; [| split; [exact Et | split; [exact Hp |]]]].
    + intros Hlt. subst history pushed.
      destruct (Nat.ltb_spec 1000 (length (fpsArray g ++ [sample]))) as [Hgt | _];
        [| reflexivity].
      rewrite length_snoc in Hgt. lia.
    + intros Heq. subst history pushed.
      destruct (Nat.ltb_spec 1000 (length (fpsArray g ++ [sample]))) as [_ | Hle].
      * destruct (fpsArray g) as [| a arr]; [discriminate Heq | reflexivity].
      * rewrite length_snoc in Hle. lia.
    + rewrite renderLoop_events.
      change (overlay_of time g) with (snd (drawFPSGraph W H history (fpsContext g))).
      rewrite Hp. reflexivity.
  - rewrite renderLoop_events, !app_assoc.
    change [renderer_restore; renderer_flush; resolveAnimationFrame;
            requestAnimationFrame_renderLoop]
      with ([renderer_restore; renderer_flush; resolveAnimationFrame]
            ++ [requestAnimationFrame_renderLoop]).
    rewrite app_assoc. apply last_last.
  - rewrite renderLoop_count by reflexivity. reflexivity.
  - apply run_frames_requests.
Qed.

Example tick_order_second_frame :
  let g := fst (renderLoop 1000 (main 800 600)) in
  fpsArray g = [infinity] /\
  fpsArray (fst (renderLoop 1016.5 g)) = [infinity; 1 / ((1016.5 - 1000) / 1000)]%float /\
  nth_error (snd (renderLoop 1016.5 g)) 9
  = Some (Overlay (Stroke "rgb(0, 255, 0)"
                     [MoveTo 0 100; LineTo 0 0;
                      LineTo 200 (yPosition 100 (1 / ((1016.5 - 1000) / 1000)))]))%float.
Proof. vm_compute. repeat split; reflexivity. Qed.

(** C6, as the code has it.  On a tick that finds no timestamp stored (the
    stored value is falsy) and receives a finite timestamp, [renderLoop]
    stores the timestamp, takes the elapsed time to be zero, pushes the
    sample [1 / 0], which is [+Infinity], into the history, and then advances
    the state machine and the artboard by zero seconds and draws the
    artboard [renderCount] times. *)
Theorem first_tick (time : number) (g : globals) :
  falsy (lastTime g) = true ->
  is_finite time = true ->
  let g' := fst (renderLoop time g) in
  let log := snd (renderLoop time g) in
  lastTime g' = time /\
  elapsedTimeSec time g = zero /\
  fpsArray g' = track infinity (fpsArray g) /\
  last (fpsArray g') 0%float = infinity /\
  log = map Overlay (overlay_of time g)
        ++ [renderer_clear;
            stateMachine_advance 0;
            artboard_advance 0;
            renderer_save;
            renderer_align contain center 0 0 (canvas_width g) (canvas_height g)]
        ++ repeat artboard_draw (Z.to_nat (renderCount g))
        ++ [renderer_restore; renderer_flush; resolveAnimationFrame;
            requestAnimationFrame_renderLoop] /\
  count is_draw log = Z.to_nat (renderCount g).
Proof.
  intros Hf Ht g' log.
  destruct (first_tick_elapsed time g Hf Ht) as [_ He].
  destruct (renderLoop_state time g) as (El & _ & Ea & _).
  subst g' log. rewrite Ea, renderLoop_count by reflexivity.
  rewrite renderLoop_events, He.
  split; [exact El |]. split; [reflexivity |]. split; [reflexivity |].
  split; [apply track_last |]. split; [reflexivity |].
  cbn. lia.
Qed.

Lemma first_tick_witness :
  let g := fst (run [ClickPlus] (main 800 600)) in
  lastTime (fst (renderLoop 1000 g)) = 1000%float /\
  fpsArray (fst (renderLoop 1000 g)) = track infinity (fpsArray g) /\
  count is_draw (snd (renderLoop 1000 g)) = Z.to_nat (renderCount g).
Proof.
  intros g.
  destruct (first_tick 1000 g) as (El & _ & Ea & _ & _ & Ed).
  - reflexivity.
  - reflexivity.
  - split; [exact El |]. split; [exact Ea | exact Ed].
Defined.

(** C6 as stated fails: the first tick records a sample. *)
Lemma first_tick_records_a_sample :
  let g := main 1024 768 in
  let g' := fst (renderLoop 1000 g) in
  falsy (lastTime g) = true /\
  lastTime g' = 1000%float /\
  elapsedTimeSec 1000 g = zero /\
  fpsArray g = [] /\
  fpsArray g' = [infinity] /\
  fpsArray g' <> fpsArray g.
Proof.
  vm_compute. repeat split; try reflexivity. discriminate.
Qed.

(** C7.  [drawFPSGraph] paints the overlay described by [overlay].  Each of
    the reference rates 30, 60 and 120 gets a horizontal line at
    [yPosition height fps]; with more than one sample, sample [i] of [n] gets
    a polyline vertex at x = [i / (n - 1) * width] and at the same
    [yPosition] of its rate passed through [max(15, min(200, fps))], which
    lies in [15, 200] for every sample that is a number, hence for every
    sample the program records from finite timestamps; with at most one
    sample the polyline is only its starting point. *)
Theorem vertical_mapping (W H : Z) (samples : list number) (c : context) :
  let width := of_Z W in
  let height := of_Z H in
  let n := length samples in
  let painted := snd (drawFPSGraph W H samples c) in
  painted = overlay W H samples /\
  (forall fps, In fps targetFPS ->
     In (Stroke "rgba(255, 0, 0, 0.5)"
           [MoveTo 0 (yPosition height fps); LineTo width (yPosition height fps)])
        painted) /\
  In (Stroke "rgb(0, 255, 0)" (polyline W H samples)) painted /\
  nth_error (polyline W H samples) 0 = Some (MoveTo 0 height) /\
  (forall i fps, (1 < n)%nat -> nth_error samples i = Some fps ->
     nth_error (polyline W H samples) (S i) =
     Some (LineTo (xPosition width n i) (yPosition height (clamp fps)))) /\
  ((n <= 1)%nat -> polyline W H samples = [MoveTo 0 height]) /\
  (forall fps, is_nan fps = false ->
     (minFPS <=? clamp fps)%float = true /\ (clamp fps <=? maxFPS)%float = true) /\
  (forall innerWidth innerHeight inputs,
     finite_frames inputs ->
     Forall (fun fps => (minFPS <=? clamp fps)%float = true /\
                        (clamp fps <=? maxFPS)%float = true)
            (fpsArray (fst (run inputs (main innerWidth innerHeight))))).
Proof.
  intros width height n painted. subst painted.
  rewrite drawFPSGraph_run. cbn [snd].
  split; [reflexivity |].
  split; [| split; [| split; [| split; [| split; [| split]]]]].
  - intros fps Hin. unfold overlay. apply in_or_app. right.
    apply in_or_app. left. apply in_flat_map. exists fps. split; [exact Hin |].
    left. reflexivity.
  - unfold overlay. apply in_or_app. right. apply in_or_app. right.
    left. reflexivity.
  - reflexivity.
  - intros i fps Hn Hi. unfold polyline. fold n.
    destruct (Nat.ltb_spec 1 n) as [_ | Hle]; [| lia].
    cbn [nth_error]. rewrite (forEach_path_nth _ samples 0 i fps Hi). reflexivity.
  - intros Hn. unfold polyline. fold n.
    destruct (Nat.ltb_spec 1 n) as [Hlt | _]; [lia | reflexivity].
  - intros fps Hnan. apply clamp_range, Hnan.
  - intros w h inputs Hfin.
    destruct (run_numbers inputs (main w h) Hfin (main_numbers w h)) as [_ Hh].
    eapply Forall_impl; [| exact Hh].
    intros fps Hnan. apply clamp_range, Hnan.
Qed.

Example polyline_of_three :
  polyline 200 100 [infinity; 60; 7.5]%float
  = [MoveTo 0 100;
     LineTo 0 (yPosition 100 200);
     LineTo 100 (yPosition 100 60);
     LineTo 200 (yPosition 100 15)]%float.
Proof. vm_compute. reflexivity. Qed.

(** C8.  On an empty history [drawFPSGraph] still clears and fills the
    overlay, draws the grid and the three reference lines, strokes a polyline
    that is only its starting point, and writes the readout: the read of the
    last element yields [undefined], which [Math.round] turns into [NaN], so
    the text is the template with [NaN] in it. *)
Theorem empty_history_overlay (W H : Z) (c : context) :
  let width := of_Z W in
  let height := of_Z H in
  index [] (Z.of_nat (length (@nil number)) - 1) = Undefined /\
  Math_round Undefined = nan /\
  drawFPSGraph W H [] c =
  ({| strokeStyle := "rgb(0, 255, 0)"; fillStyle := "rgb(255, 255, 255)";
      font := "10px monospace"; path := [MoveTo 0 height] |},
   [ClearRect 0 0 width height;
    FillRect "rgba(0, 0, 0, 0.7)" 0 0 width height;
    Stroke "rgba(255, 255, 255, 0.1)" (grid W H)]
   ++ flat_map (reference_line W H) targetFPS
   ++ [Stroke "rgb(0, 255, 0)" [MoveTo 0 height];
       FillText "rgb(255, 255, 255)" "10px monospace"
         [Lit "Current: "; Hole nan; Lit " FPS"] 5 10]).
Proof.
  intros width height.
  split; [reflexivity |]. split; [reflexivity |].
  rewrite drawFPSGraph_run. reflexivity.
Qed.

(** C9, as the code has it.  What [drawFPSGraph] paints depends on the
    samples and on the size of the overlay canvas only: two calls on equal
    samples paint the same, whatever context they start from.  The function
    does write mutable state that outlives the call, the stroke style, fill
    style, font and path of the shared context, but it sets each of them
    before using it, so nothing it paints depends on what an earlier call
    left there; what it leaves depends on the samples only, so a repeated
    call leaves the context as it found it.  In the running program, where
    the overlay is always 200 by 100, two ticks that draw equal histories
    paint equal overlays. *)
Theorem overlay_deterministic (W H : Z) (samples : list number) (c1 c2 : context) :
  drawFPSGraph W H samples c1 = drawFPSGraph W H samples c2 /\
  drawFPSGraph W H samples (fst (drawFPSGraph W H samples c1))
  = drawFPSGraph W H samples c1 /\
  snd (drawFPSGraph W H samples c1) = overlay W H samples /\
  fst (drawFPSGraph W H samples c1)
  = {| strokeStyle := "rgb(0, 255, 0)"; fillStyle := "rgb(255, 255, 255)";
       font := "10px monospace"; path := polyline W H samples |} /\
  (forall g1 g2 t1 t2,
     reachable g1 -> reachable g2 ->
     fpsArray (fst (renderLoop t1 g1)) = fpsArray (fst (renderLoop t2 g2)) ->
     overlay_of t1 g1 = overlay_of t2 g2 /\
     overlay_of t1 g1 = overlay 200 100 (fpsArray (fst (renderLoop t1 g1))) /\
     fpsContext (fst (renderLoop t1 g1)) = fpsContext (fst (renderLoop t2 g2)) /\
     fpsContext (fst (renderLoop t1 g1))
     = {| strokeStyle := "rgb(0, 255, 0)"; fillStyle := "rgb(255, 255, 255)";
          font := "10px monospace";
          path := polyline 200 100 (fpsArray (fst (renderLoop t1 g1))) |}).
Proof.
  split; [| split; [| split; [| split]]].
  - rewrite !drawFPSGraph_run. reflexivity.
  - rewrite !drawFPSGraph_run. reflexivity.
  - rewrite drawFPSGraph_run. reflexivity.
  - rewrite drawFPSGraph_run. reflexivity.
  - intros g1 g2 t1 t2 R1 R2 E.
    destruct (reachable_inv g1 R1) as [_ _ _ Hw1 Hh1].
    destruct (reachable_inv g2 R2) as [_ _ _ Hw2 Hh2].
    destruct (renderLoop_state t1 g1) as (_ & _ & E1 & _).
    destruct (renderLoop_state t2 g2) as (_ & _ & E2 & _).
    rewrite !renderLoop_context.
    unfold overlay_of. rewrite !drawFPSGraph_run. cbn [snd].
    rewrite Hw1, Hh1, Hw2, Hh2, <- E1, <- E2, E. repeat split; reflexivity.
Qed.

(** C9 as stated fails: the call writes to the shared context.  A context
    fresh from [getContext] has black styles, the default font and an empty
    path; after one call, even on no samples, all four have changed, and so
    has the context of the program after its first tick. *)
Lemma drawFPSGraph_writes_context :
  let c' := fst (drawFPSGraph 200 100 [] fresh) in
  fresh = {| strokeStyle := "#000000"; fillStyle := "#000000";
             font := "10px sans-serif"; path := [] |} /\
  c' = {| strokeStyle := "rgb(0, 255, 0)"; fillStyle := "rgb(255, 255, 255)";
          font := "10px monospace"; path := [MoveTo 0 100] |} /\
  c' <> fresh /\
  fpsContext (fst (renderLoop 16.5 (main 800 600))) <> fpsContext (main 800 600).
Proof.
  vm_compute. repeat split; try reflexivity; intros E; discriminate E.
Qed.

(** C10.  The stored timestamp doubles as the mark of the first tick.  A
    tick delivered with timestamp 0 leaves 0 stored, which is falsy, so the
    tick after it takes the first-tick branch again: whatever finite
    timestamp [t2] it receives, it measures from [t2] itself and its elapsed
    time is zero, not [t2 - 0].  A run that starts with timestamp 0 thus has
    two ticks without elapsed time. *)
Theorem zero_timestamp_sentinel (g : globals) (t2 : number) :
  is_finite t2 = true ->
  let g1 := fst (renderLoop 0 g) in
  let g2 := fst (renderLoop t2 g1) in
  lastTime g1 = zero /\
  falsy (lastTime g1) = true /\
  startTime t2 g1 = t2 /\
  elapsedTimeSec t2 g1 = zero /\
  fpsArray g2 = track infinity (fpsArray g1) /\
  lastTime g2 = t2 /\
  (falsy (lastTime g) = true ->
   elapsedTimeSec 0 g = zero /\ elapsedTimeSec t2 g1 = zero).
Proof.
  intros Ht g1 g2.
  destruct (renderLoop_state 0 g) as (E0 & _).
  assert (Hf : falsy (lastTime g1) = true) by (subst g1; rewrite E0; reflexivity).
  destruct (first_tick_elapsed t2 g1 Hf Ht) as [Es Ee].
  destruct (renderLoop_state t2 g1) as (E2 & _ & Ea & _).
  split; [exact E0 |]. split; [exact Hf |]. split; [exact Es |].
  split; [exact Ee |].
  split; [subst g2; rewrite Ea, Ee; reflexivity |].
  split; [exact E2 |].
  intros Hg. split; [| exact Ee].
  apply (first_tick_elapsed 0 g Hg). reflexivity.
Qed.

Lemma zero_timestamp_sentinel_witness :
  let g1 := fst (renderLoop 0 (main 800 600)) in
  lastTime g1 = zero /\ elapsedTimeSec 16.5 g1 = zero.
Proof.
  intros g1.
  destruct (zero_timestamp_sentinel (main 800 600) 16.5) as (E0 & _ & _ & Ee & _).
  - reflexivity.
  - split; [exact E0 | exact Ee].
Defined.

Example zero_timestamp_run :
  fpsArray (fst (run [Frame 0; Frame 16.5; Frame 33] (main 800 600)))
  = [infinity; infinity; (1 / ((33 - 16.5) / 1000))]%float.
Proof. vm_compute. reflexivity. Qed.

(** * Part V: further properties of the code *)

(** ** Comparisons of binary64 values *)

Module CompareFacts.

Lemma SFcompare_antisym (x y : spec_float) (c : comparison) :
  SFcompare x y = Some c -> SFcompare y x = Some (CompOpp c).
Proof.
  destruct x as [sx | sx | | sx mx ex], y as [sy | sy | | sy my ey];
    cbn [SFcompare]; try discriminate;
    intros E; injection E as <-;
    try (destruct sx; reflexivity); try (destruct sy; reflexivity);
    try (destruct sx, sy; reflexivity).
  destruct sx, sy; try reflexivity;
    rewrite (Z.compare_antisym ex ey);
    replace (Pos.compare_cont Eq my mx) with (CompOpp (Pos.compare_cont Eq mx my))
      by apply (Pos.compare_cont_antisym mx my Eq);
    destruct (ex ?= ey); cbn [CompOpp]; try reflexivity;
    destruct (Pos.compare_cont Eq mx my); reflexivity.
Qed.

Lemma SFcompare_eq_finite (x : spec_float) (m : positive) (e : Z) (s : bool) :
  SFcompare x (S754_finite s m e) = Some Eq -> x = S754_finite s m e.
Proof.
  destruct x as [sx | sx | | sx mx ex]; cbn [SFcompare]; try discriminate.
  - destruct s; discriminate.
  - destruct sx; discriminate.
  - destruct sx, s; try discriminate;
      destruct (Z.compare_spec ex e) as [-> | |]; try discriminate;
      intros E; injection E as E.
    + apply (f_equal CompOpp) in E. cbn in E.
      rewrite CompOpp_involutive in E.
      apply Pos.compare_eq in E. now subst.
    + apply Pos.compare_eq in E. now subst.
Qed.

(** Below a positive number, below every positive number of a larger
    exponent. *)
Lemma SFcompare_lt_exp (x : spec_float) (m1 m2 : positive) (e1 e2 : Z) :
  e1 < e2 ->
  SFcompare x (S754_finite false m1 e1) = Some Lt ->
  SFcompare x (S754_finite false m2 e2) = Some Lt.
Proof.
  intros He. destruct x as [sx | sx | | sx mx ex]; cbn [SFcompare]; try discriminate;
    try (destruct sx; congruence).
  destruct sx; [reflexivity |].
  destruct (Z.compare_spec ex e1), (Z.compare_spec ex e2); try lia; congruence.
Qed.

Lemma compared_not_nan (x y : float) (c : comparison) :
  SFcompare (Prim2SF x) (Prim2SF y) = Some c ->
  is_nan x = false /\ is_nan y = false.
Proof.
  intros E. rewrite !FloatFacts.is_nan_spec.
  split; intros N; rewrite N in E; [| destruct (Prim2SF x)]; discriminate.
Qed.

(** At or above 200, clamped to 200. *)
Lemma clamp_top (fps : number) : (200 <=? fps)%float = true -> clamp fps = 200%float.
Proof.
  rewrite leb_spec. unfold SFleb.
  destruct (SFcompare (Prim2SF 200) (Prim2SF fps)) as [c |] eqn:E; [| discriminate].
  destruct (compared_not_nan _ _ _ E) as [_ Hnan].
  pose proof (SFcompare_antisym _ _ _ E) as E'.
  intros Hc. unfold clamp, Math_min.
  rewrite Hnan, !ltb_spec. unfold SFltb. rewrite E, E'.
  destruct c; try discriminate; reflexivity.
Qed.

(** At or below 15, clamped to 15. *)
Lemma clamp_bottom (fps : number) : (fps <=? 15)%float = true -> clamp fps = 15%float.
Proof.
  rewrite leb_spec. unfold SFleb.
  destruct (SFcompare (Prim2SF fps) (Prim2SF 15)) as [c |] eqn:E; [| discriminate].
  destruct (compared_not_nan _ _ _ E) as [Hnan _].
  intros Hc. destruct c; try discriminate.
  - change (Prim2SF 15) with (S754_finite false 8444249301319680 (-49)) in E.
    apply SFcompare_eq_finite in E.
    assert (fps = 15%float) as -> by (apply Prim2SF_inj; exact E).
    reflexivity.
  - assert (E200 : SFcompare (Prim2SF fps) (Prim2SF 200) = Some Lt).
    { change (Prim2SF 200) with (S754_finite false 7036874417766400 (-45)).
      change (Prim2SF 15) with (S754_finite false 8444249301319680 (-49)) in E.
      apply (SFcompare_lt_exp _ 8444249301319680 _ (-49) (-45)); [lia | exact E]. }
    pose proof (SFcompare_antisym _ _ _ E200) as E200'.
    pose proof (SFcompare_antisym _ _ _ E) as E15'.
    unfold clamp, Math_min, Math_max.
    rewrite Hnan, !ltb_spec. unfold SFltb. rewrite E200, E200'.
    cbn [CompOpp orb]. change (is_nan 200) with false. change (is_nan 15) with false.
    cbn [orb]. rewrite E, E15', Hnan. reflexivity.
Qed.

End CompareFacts.

(** ** Runs *)

Section Runs.

(** Clicks and resizes call nothing and leave the timing alone. *)
Lemma step_no_frame (i : input) (g : globals) :
  is_frame i = false ->
  lastTime (fst (step i g)) = lastTime g /\
  fpsArray (fst (step i g)) = fpsArray g /\
  snd (step i g) = [].
Proof. destruct i; cbn; intros E; try discriminate; auto. Qed.

Lemma run_no_frames (inputs : list input) (g : globals) :
  forallb (fun i => negb (is_frame i)) inputs = true ->
  lastTime (fst (run inputs g)) = lastTime g /\
  fpsArray (fst (run inputs g)) = fpsArray g /\
  snd (run inputs g) = [].
Proof.
  revert g. induction inputs as [| i rest IH]; intros g Hall; [auto |].
  cbn [forallb] in Hall. apply andb_true_iff in Hall. destruct Hall as [Hi Hrest].
  apply negb_true_iff in Hi.
  destruct (step_no_frame i g Hi) as (El & Ea & Eo).
  destruct (IH (fst (step i g)) Hrest) as (El' & Ea' & Eo').
  rewrite run_cons. cbn [fst snd].
  rewrite El', Ea', Eo', El, Ea, Eo. auto.
Qed.

Lemma run_app (xs ys : list input) (g : globals) :
  run (xs ++ ys) g =
  (fst (run ys (fst (run xs g))), snd (run xs g) ++ snd (run ys (fst (run xs g)))).
Proof.
  revert g. induction xs as [| i xs IH]; intros g.
  - cbn. destruct (run ys g); reflexivity.
  - rewrite <- app_comm_cons, !run_cons, IH. cbn [fst snd].
    rewrite app_assoc. reflexivity.
Qed.

Lemma rates_length (inputs : list input) (g : globals) :
  length (rates inputs g) = frames inputs.
Proof.
  revert g. unfold frames. induction inputs as [| i rest IH]; intros g; [reflexivity |].
  cbn [rates filter]. rewrite length_app, IH.
  destruct i; reflexivity.
Qed.

Lemma record_all_length (xs : list number) :
  length (record_all xs []) = Nat.min MAX_FPS_SAMPLES (length xs).
Proof.
  rewrite record_all_spec by (cbn [length]; lia).
  rewrite length_skipn. cbn [app]. lia.
Qed.

End Runs.

(** X1.  In a run whose frames carry finite timestamps the stored timestamp
    stays finite and no entry of the history is [NaN]: every entry is a
    finite rate or an infinity. *)
Theorem history_holds_numbers (innerWidth innerHeight : Z) (inputs : list input) :
  finite_frames inputs ->
  let g := fst (run inputs (main innerWidth innerHeight)) in
  is_finite (lastTime g) = true /\
  Forall (fun fps => is_nan fps = false) (fpsArray g).
Proof.
  intros Hfin g.
  destruct (run_numbers inputs (main innerWidth innerHeight) Hfin
              (main_numbers innerWidth innerHeight)) as [Hl Hh].
  split; assumption.
Qed.

Lemma history_holds_numbers_witness :
  Forall (fun fps => is_nan fps = false)
         (fpsArray (fst (run [Frame 0; ClickPlus; Frame 16.5; Frame 16.5] (main 800 600)))).
Proof.
  apply (history_holds_numbers 800 600 [Frame 0; ClickPlus; Frame 16.5; Frame 16.5]).
  intros time Hin. cbn [In] in Hin.
  destruct Hin as [E | [E | [E | [E | []]]]]; try discriminate E;
    injection E as <-; reflexivity.
Defined.

(** X2.  The history holds one entry per frame delivered until it is full:
    its length is the number of frames, capped at 1000.  Clicks and resizes
    do not add to it. *)
Theorem history_length (innerWidth innerHeight : Z) (inputs : list input) :
  length (fpsArray (fst (run inputs (main innerWidth innerHeight))))
  = Nat.min 1000 (frames inputs).
Proof.
  rewrite run_history. cbn [main onResizeWindow fpsArray].
  rewrite record_all_length, rates_length. reflexivity.
Qed.

(** X3.  Clicks and resizes between two frames do not disturb the timing:
    when a frame with a truthy timestamp [t1] is followed, after any number
    of clicks and resizes, by a frame with timestamp [t2], the newest entry
    of the history is [1 / ((t2 - t1) / 1000)] and the stored timestamp is
    [t2]. *)
Theorem rate_between_frames (g : globals) (t1 t2 : number) (between : list input) :
  falsy t1 = false ->
  forallb (fun i => negb (is_frame i)) between = true ->
  let g' := fst (run (Frame t1 :: between ++ [Frame t2]) g) in
  last (fpsArray g') 0%float = (1 / ((t2 - t1) / 1000))%float /\
  lastTime g' = t2.
Proof.
  intros Ht1 Hbetween g'. subst g'.
  rewrite run_cons, run_app. cbn [fst step].
  set (g1 := fst (renderLoop t1 g)).
  destruct (renderLoop_state t1 g) as (El1 & _). fold g1 in El1.
  destruct (run_no_frames between g1 Hbetween) as (El & _ & _).
  set (g2 := fst (run between g1)) in *.
  cbn [run step]. destruct (renderLoop t2 g2) as [g3 o3] eqn:E3. cbn [fst].
  destruct (renderLoop_state t2 g2) as (El3 & _ & Ea3 & _).
  rewrite E3 in El3, Ea3. cbn [fst] in El3, Ea3.
  rewrite Ea3, track_last. split; [| exact El3].
  unfold elapsedTimeSec, elapsedTimeMs, startTime. rewrite El, El1, Ht1. reflexivity.
Qed.

Lemma rate_between_frames_witness :
  last (fpsArray (fst (run (Frame 1000 :: [ClickPlus; Resize 640 480] ++ [Frame 1016.5])
                           (main 800 600)))) 0%float
  = (1 / ((1016.5 - 1000) / 1000))%float.
Proof.
  destruct (rate_between_frames (main 800 600) 1000 1016.5 [ClickPlus; Resize 640 480])
    as [E _].
  - reflexivity.
  - reflexivity.
  - exact E.
Defined.


(** ** The polyline *)

Section Polyline.

Lemma forEach_path_length {A} (seg : A -> nat -> segment) (xs : list A) (k : nat) :
  length (forEach_path k xs seg) = length xs.
Proof.
  revert k. induction xs as [| x xs IH]; intros k; [reflexivity |].
  cbn [forEach_path length]. now rewrite IH.
Qed.

Lemma polyline_length (W H : Z) (samples : list number) :
  length (polyline W H samples)
  = if (1 <? length samples)%nat then S (length samples) else 1%nat.
Proof.
  unfold polyline. destruct (1 <? length samples)%nat; cbn [length]; [| reflexivity].
  now rewrite forEach_path_length.
Qed.

(** The vertex of sample [i], when there is more than one sample. *)
Lemma polyline_vertex (W H : Z) (samples : list number) (i : nat) (fps : number) :
  (1 < length samples)%nat ->
  nth_error samples i = Some fps ->
  nth_error (polyline W H samples) (S i)
  = Some (LineTo (xPosition (of_Z W) (length samples) i)
                 (yPosition (of_Z H) (clamp fps))).
Proof.
  intros Hn Hi. unfold polyline.
  destruct (Nat.ltb_spec 1 (length samples)) as [_ | Hle]; [| lia].
  cbn [nth_error]. rewrite (forEach_path_nth _ samples 0 i fps Hi). reflexivity.
Qed.


End Polyline.

(** X5.  The graph saturates.  With more than one sample, a sample at or
    above 200 (the [Infinity] of a tick without elapsed time included) gets
    its vertex on the top row of the overlay, y = 0, and a sample at or below
    15 (negative rates and [-Infinity] included) on the bottom row,
    y = 100. *)
Theorem polyline_saturates (samples : list number) (i : nat) (fps : number)
        (c : context) :
  (1 < length samples)%nat ->
  nth_error samples i = Some fps ->
  let vertex := nth_error (path (fst (drawFPSGraph 200 100 samples c))) (S i) in
  ((200 <=? fps)%float = true ->
   vertex = Some (LineTo (xPosition 200 (length samples) i) 0)) /\
  ((fps <=? 15)%float = true ->
   vertex = Some (LineTo (xPosition 200 (length samples) i) 100)).
Proof.
  intros Hn Hi vertex. subst vertex.
  rewrite drawFPSGraph_run. cbn [fst context_after path].
  rewrite (polyline_vertex 200 100 samples i fps Hn Hi).
  split; intros Hfps.
  - rewrite (CompareFacts.clamp_top fps Hfps). reflexivity.
  - rewrite (CompareFacts.clamp_bottom fps Hfps). reflexivity.
Qed.

Lemma polyline_saturates_witness :
  nth_error (path (fst (drawFPSGraph 200 100 [infinity; 60; -3]%float fresh))) 1
  = Some (LineTo 0 0) /\
  nth_error (path (fst (drawFPSGraph 200 100 [infinity; 60; -3]%float fresh))) 3
  = Some (LineTo 200 100).
Proof.
  split.
  - destruct (polyline_saturates [infinity; 60; -3]%float 0 infinity fresh) as [Htop _].
    + cbn [length]. lia.
    + reflexivity.
    + exact (Htop eq_refl).
  - destruct (polyline_saturates [infinity; 60; -3]%float 2 (-3)%float fresh) as [_ Hbot].
    + cbn [length]. lia.
    + reflexivity.
    + exact (Hbot eq_refl).
Defined.



(** ** The counter *)

Section Counter.

Lemma run_plus (k : nat) (g : globals) :
  renderCount g <= 100 ->
  renderCount (fst (run (repeat ClickPlus k) g)) = Z.min 100 (renderCount g + Z.of_nat k).
Proof.
  revert g. induction k as [| k IH]; intros g Hg.
  - cbn [repeat run fst]. lia.
  - cbn [repeat]. rewrite run_cons. cbn [fst step].
    rewrite IH by (cbn; lia). cbn [plusBtn_onclick renderCount]. lia.
Qed.

Lemma run_minus (k : nat) (g : globals) :
  1 <= renderCount g ->
  renderCount (fst (run (repeat ClickMinus k) g)) = Z.max 1 (renderCount g - Z.of_nat k).
Proof.
  revert g. induction k as [| k IH]; intros g Hg.
  - cbn [repeat run fst]. lia.
  - cbn [repeat]. rewrite run_cons. cbn [fst step].
    rewrite IH by (cbn; lia). cbn [minusBtn_onclick renderCount]. lia.
Qed.

(** The text of a count between 1 and 100 reads back as that count. *)
Lemma parse_Z_toString (z : Z) :
  1 <= z <= 100 -> parse_count (Z_toString z) = Some z.
Proof.
  intros Hz.
  assert (Hall : forallb (fun n => match parse_count (Z_toString (Z.of_nat n)) with
                                   | Some z' => z' =? Z.of_nat n
                                   | None => false
                                   end) (List.seq 1 100) = true)
    by (vm_compute; reflexivity).
  rewrite forallb_forall in Hall.
  specialize (Hall (Z.to_nat z) ltac:(apply in_seq; lia)).
  rewrite Z2Nat.id in Hall by lia.
  destruct (parse_count (Z_toString z)) as [z' |]; [| discriminate].
  apply Z.eqb_eq in Hall. now subst.
Qed.

End Counter.

(** X7.  Clicks accumulate up to the bounds: after any run, [k] further
    clicks on [+] leave the count at [min(100, count + k)], and [k] further
    clicks on [-] leave it at [max(1, count - k)]. *)
Theorem clicks_accumulate (innerWidth innerHeight : Z) (inputs : list input) (k : nat) :
  let g := fst (run inputs (main innerWidth innerHeight)) in
  renderCount (fst (run (inputs ++ repeat ClickPlus k) (main innerWidth innerHeight)))
  = Z.min 100 (renderCount g + Z.of_nat k) /\
  renderCount (fst (run (inputs ++ repeat ClickMinus k) (main innerWidth innerHeight)))
  = Z.max 1 (renderCount g - Z.of_nat k).
Proof.
  intros g.
  destruct (run_inv inputs _ (main_inv innerWidth innerHeight)) as [Hc _ _ _ _].
  fold g in Hc. rewrite !run_app. cbn [fst]. fold g.
  split; [apply run_plus | apply run_minus]; lia.
Qed.

(** X8.  Below the upper bound a click on [-] undoes a click on [+], and
    above the lower bound a click on [+] undoes a click on [-]: every
    variable, the displayed text included, is as before.  At the bounds the
    pair is no round trip: [+] then [-] at 100 ends at 99, and [-] then [+]
    at 1 ends at 2. *)
Theorem clicks_undo (innerWidth innerHeight : Z) (inputs : list input) :
  let g := fst (run inputs (main innerWidth innerHeight)) in
  (renderCount g < 100 -> minusBtn_onclick (plusBtn_onclick g) = g) /\
  (1 < renderCount g -> plusBtn_onclick (minusBtn_onclick g) = g) /\
  (renderCount g = 100 -> renderCount (minusBtn_onclick (plusBtn_onclick g)) = 99) /\
  (renderCount g = 1 -> renderCount (plusBtn_onclick (minusBtn_onclick g)) = 2).
Proof.
  intros g.
  destruct (run_inv inputs _ (main_inv innerWidth innerHeight)) as [Hc Hd _ _ _].
  fold g in Hc, Hd.
  destruct g as [lt rc arr cw ch fw fh ctx disp]. cbn in Hc, Hd.
  unfold plusBtn_onclick, minusBtn_onclick. cbn.
  split; [| split; [| split]]; intros Hrc.
  - replace (Z.max 1 (Z.min 100 (rc + 1) - 1)) with rc by lia. now rewrite Hd.
  - replace (Z.min 100 (Z.max 1 (rc - 1) + 1)) with rc by lia. now rewrite Hd.
  - subst rc. reflexivity.
  - subst rc. reflexivity.
Qed.

(** X9.  In every state of a run the text of the counter is the decimal
    numeral of the render count: read back as a number it gives the count,
    so two states show the same text only if their counts are equal. *)
Theorem display_shows_count (innerWidth innerHeight : Z) (inputs inputs' : list input) :
  let g := fst (run inputs (main innerWidth innerHeight)) in
  let g' := fst (run inputs' (main innerWidth innerHeight)) in
  countDisplay g = Z_toString (renderCount g) /\
  parse_count (countDisplay g) = Some (renderCount g) /\
  (countDisplay g = countDisplay g' -> renderCount g = renderCount g').
Proof.
  intros g g'.
  destruct (run_inv inputs _ (main_inv innerWidth innerHeight)) as [Hc Hd _ _ _].
  destruct (run_inv inputs' _ (main_inv innerWidth innerHeight)) as [Hc' Hd' _ _ _].
  fold g in Hc, Hd. fold g' in Hc', Hd'.
  assert (P : parse_count (countDisplay g) = Some (renderCount g))
    by (rewrite Hd; now apply parse_Z_toString).
  assert (P' : parse_count (countDisplay g') = Some (renderCount g'))
    by (rewrite Hd'; now apply parse_Z_toString).
  split; [exact Hd |]. split; [exact P |].
  intros E. rewrite E, P' in P. now injection P.
Qed.

Example counter_texts :
  map (fun k => countDisplay (fst (run (repeat ClickPlus k) (main 800 600))))
      [0; 1; 9; 98; 99; 100; 250]%nat
  = ["1"; "2"; "10"; "99"; "100"; "100"; "100"].
Proof. vm_compute. reflexivity. Qed.

(** ** The log of a run *)

Section Accounting.

Lemma frames_cons (i : input) (rest : list input) :
  frames (i :: rest) = ((if is_frame i then 1 else 0) + frames rest)%nat.
Proof. unfold frames. cbn [filter]. destruct (is_frame i); reflexivity. Qed.

(** A kind of call made a fixed number of times per tick is made that many
    times per frame of a run. *)
Lemma run_count (p : event -> bool) (c : nat) (inputs : list input) (g : globals) :
  (forall time g', count p (snd (renderLoop time g')) = c) ->
  count p (snd (run inputs g)) = (c * frames inputs)%nat.
Proof.
  intros Hc. revert g. induction inputs as [| i rest IH]; intros g.
  - cbn. lia.
  - rewrite run_cons, frames_cons. cbn [snd]. rewrite count_app, IH.
    destruct i as [time | | | w h]; cbn [step snd is_frame]; [rewrite Hc |..];
      cbn [count filter length]; lia.
Qed.

Lemma run_draws (inputs : list input) (g : globals) :
  Inv g ->
  (frames inputs <= count is_draw (snd (run inputs g)) <= 100 * frames inputs)%nat.
Proof.
  revert g. induction inputs as [| i rest IH]; intros g Hg.
  - cbn. lia.
  - rewrite run_cons, frames_cons. cbn [snd]. rewrite count_app.
    specialize (IH (fst (step i g)) (step_inv i g Hg)).
    destruct Hg as [Hc _ _ _ _].
    destruct i as [time | | | w h]; cbn [step snd is_frame] in *;
      [rewrite renderLoop_count by reflexivity |..];
      cbn [count filter length is_draw Nat.add] in *; lia.
Qed.

Lemma run_canvas (inputs : list input) (g : globals) :
  (canvas_width (fst (run inputs g)), canvas_height (fst (run inputs g)))
  = window_size inputs (canvas_width g, canvas_height g).
Proof.
  revert g. induction inputs as [| i rest IH]; intros g; [reflexivity |].
  rewrite run_cons. cbn [fst]. rewrite IH.
  destruct i as [time | | | w h]; cbn [step fst window_size]; try reflexivity.
  destruct (renderLoop_state time g) as (_ & _ & _ & -> & -> & _). reflexivity.
Qed.

End Accounting.

(** X10.  Every frame of every run makes exactly one [clear], one [save],
    one [restore], one [flush] and one request for the next frame, and as
    many draws as the render count at that moment, which is between 1 and
    100; every click and every resize of every run makes no call at all.
    Here [inputs] is what was delivered before and [i] the input delivered
    next.  Summed over the run, each of the five calls is made once per
    frame delivered, so exactly one callback is pending after every frame:
    the loop neither stops nor doubles. *)
Theorem run_accounting (innerWidth innerHeight : Z) (inputs : list input) (i : input) :
  let g := fst (run inputs (main innerWidth innerHeight)) in
  let log := snd (run inputs (main innerWidth innerHeight)) in
  let next := snd (step i g) in
  snd (run (inputs ++ [i]) (main innerWidth innerHeight)) = log ++ next /\
  (is_frame i = false -> next = []) /\
  (is_frame i = true ->
   count is_clear next = 1%nat /\
   count is_save next = 1%nat /\
   count is_restore next = 1%nat /\
   count is_flush next = 1%nat /\
   count is_request next = 1%nat /\
   count is_draw next = Z.to_nat (renderCount g) /\
   (1 <= count is_draw next <= 100)%nat) /\
  count is_clear log = frames inputs /\
  count is_save log = frames inputs /\
  count is_restore log = frames inputs /\
  count is_flush log = frames inputs /\
  count is_request log = frames inputs /\
  (frames inputs <= count is_draw log <= 100 * frames inputs)%nat /\
  (frames inputs = 0%nat -> log = []).
Proof.
  intros g log next.
  destruct (run_inv inputs _ (main_inv innerWidth innerHeight)) as [Hc _ _ _ _].
  fold g in Hc.
  split; [| split; [| split]].
  - rewrite run_app, run_cons. cbn [snd run]. now rewrite app_nil_r.
  - intros Hi. apply (step_no_frame i g Hi).
  - intros Hi. destruct i as [time | | | w h]; try discriminate Hi.
    subst next. cbn [step].
    repeat (split; [rewrite renderLoop_count by reflexivity; reflexivity |]).
    split; rewrite renderLoop_count by reflexivity; cbn; lia.
  - subst log.
    repeat (split; [rewrite (run_count _ 1) by
                      (intros; rewrite renderLoop_count by reflexivity; reflexivity);
                    lia |]).
    split; [apply run_draws, main_inv |].
    intros Hno. apply run_no_frames.
    unfold frames in Hno. apply length_zero_iff_nil in Hno.
    apply forallb_forall. intros j Hj.
    destruct (is_frame j) eqn:E; [| reflexivity].
    assert (Hin : In j (filter is_frame inputs)) by (apply filter_In; auto).
    rewrite Hno in Hin. destruct Hin.
Qed.

Example accounting_of_a_run :
  let inputs := [Frame 1000; ClickPlus; ClickPlus; Frame 1016.5; Resize 640 480;
                 ClickMinus; Frame 1033]%float in
  let log := snd (run inputs (main 800 600)) in
  (frames inputs, count is_request log, count is_flush log, count is_draw log)
  = (3, 3, 3, 1 + 3 + 2)%nat.
Proof. vm_compute. reflexivity. Qed.

(** X11.  The main canvas follows the window: after any run its size is the
    one of the last resize (the one [main] found, if none), the next tick
    aligns the artboard to exactly that rectangle, and no resize touches the
    overlay canvas, which stays 200 by 100. *)
Theorem canvas_follows_window (innerWidth innerHeight : Z) (inputs : list input)
        (time : number) :
  let g := fst (run inputs (main innerWidth innerHeight)) in
  let size := window_size inputs (innerWidth, innerHeight) in
  (canvas_width g, canvas_height g) = size /\
  In (renderer_align contain center 0 0 (fst size) (snd size)) (snd (renderLoop time g)) /\
  fpsCanvas_width g = 200 /\ fpsCanvas_height g = 100.
Proof.
  intros g size.
  assert (Hsize : (canvas_width g, canvas_height g) = size)
    by (subst g size; now rewrite run_canvas).
  destruct (run_inv inputs _ (main_inv innerWidth innerHeight)) as [_ _ _ Hw Hh].
  split; [exact Hsize |]. split; [| split; assumption].
  rewrite renderLoop_events, <- Hsize. cbn [fst snd].
  apply in_or_app. right. apply in_or_app. left. cbn. auto 6.
Qed.

(** X14.  A frame that repeats the stored timestamp (finite and truthy) has
    no elapsed time although it does not take the first-tick branch: it
    pushes [+Infinity], advances the scene by zero seconds and draws as
    often as any other tick. *)
Theorem duplicate_timestamp (time : number) (g : globals) :
  is_finite time = true ->
  falsy time = false ->
  let g1 := fst (renderLoop time g) in
  let log := snd (renderLoop time g1) in
  startTime time g1 = lastTime g1 /\
  elapsedTimeSec time g1 = zero /\
  last (fpsArray (fst (renderLoop time g1))) 0%float = infinity /\
  In (stateMachine_advance 0) log /\
  In (artboard_advance 0) log /\
  count is_draw log = Z.to_nat (renderCount g).
Proof.
  intros Hfin Hfalsy g1 log. subst log.
  destruct (renderLoop_state time g) as (El & Ec & _). fold g1 in El, Ec.
  clearbody g1.
  assert (Hs : startTime time g1 = lastTime g1)
    by (unfold startTime; now rewrite El, Hfalsy).
  assert (He : elapsedTimeSec time g1 = zero).
  { unfold elapsedTimeSec, elapsedTimeMs. rewrite Hs, El.
    rewrite (FloatFacts.sub_diag time Hfin). reflexivity. }
  destruct (renderLoop_state time g1) as (_ & _ & Ea & _).
  split; [exact Hs |]. split; [exact He |].
  split; [rewrite Ea, track_last, He; reflexivity |].
  rewrite renderLoop_count by reflexivity.
  rewrite renderLoop_events, He, Ec.
  split; [apply in_or_app; right; cbn; auto |].
  split; [apply in_or_app; right; cbn; auto |].
  cbn. lia.
Qed.

Lemma duplicate_timestamp_witness :
  let g1 := fst (renderLoop 1000 (main 800 600)) in
  elapsedTimeSec 1000 g1 = zero /\
  last (fpsArray (fst (renderLoop 1000 g1))) 0%float = infinity.
Proof.
  intros g1.
  destruct (duplicate_timestamp 1000 (main 800 600)) as (_ & He & E & _).
  - reflexivity.
  - reflexivity.
  - split; [exact He | exact E].
Defined.

(** ** The grid and the paints of the overlay *)

Section Grid.

Lemma for_step_path_multiples (segs : Z -> list segment) (step : Z)
      (fuel : nat) (i bound : Z) :
  0 < step ->
  (Z.to_nat (bound - i) <= fuel)%nat ->
  for_step_path fuel i bound step segs
  = flat_map segs
      (map (fun k => i + step * Z.of_nat k)
           (List.seq 0 (Z.to_nat ((bound - i + step - 1) / step)))).
Proof.
  intros Hstep. revert i. induction fuel as [| fuel IH]; intros i Hfuel.
  - replace (Z.to_nat ((bound - i + step - 1) / step)) with 0%nat; [reflexivity |].
    assert ((bound - i + step - 1) / step <= 0); [| lia].
    assert ((bound - i + step - 1) / step < 1); [| lia].
    apply Z.div_lt_upper_bound; lia.
  - cbn [for_step_path]. destruct (Z.ltb_spec i bound) as [Hlt | Hge].
    + rewrite IH by lia.
      assert (E : (bound - i + step - 1) / step
                  = (bound - (i + step) + step - 1) / step + 1).
      { replace (bound - i + step - 1) with (bound - (i + step) + step - 1 + 1 * step)
          by lia.
        apply Z.div_add. lia. }
      assert (Hn : 0 <= (bound - (i + step) + step - 1) / step)
        by (apply Z.div_pos; lia).
      rewrite E, Z2Nat.inj_add, Nat.add_comm by lia.
      change (Z.to_nat 1) with 1%nat.
      cbn [Nat.add List.seq map flat_map].
      replace (i + step * Z.of_nat 0) with i by lia.
      f_equal. rewrite <- seq_shift, map_map. f_equal.
      apply map_ext. intros k. lia.
    + replace (Z.to_nat ((bound - i + step - 1) / step)) with 0%nat; [reflexivity |].
      assert ((bound - i + step - 1) / step < 1); [| lia].
      apply Z.div_lt_upper_bound; lia.
Qed.

Lemma for_step_path_from_zero (segs : Z -> list segment) (bound : Z) :
  for_step_path (Z.to_nat bound) 0 bound 20 segs = flat_map segs (multiples bound 20).
Proof.
  rewrite for_step_path_multiples by lia. unfold multiples.
  rewrite Z.sub_0_r. f_equal.
Qed.

Lemma in_multiples (bound i : Z) :
  In i (multiples bound 20) <-> 0 <= i < bound /\ i mod 20 = 0.
Proof.
  unfold multiples. rewrite in_map_iff. split.
  - intros (k & <- & Hk). apply in_seq in Hk.
    assert (Z.of_nat k < (bound + 20 - 1) / 20) by lia.
    assert (20 * Z.of_nat k + 20 <= bound + 19).
    { pose proof (Z.mul_div_le (bound + 20 - 1) 20 ltac:(lia)). lia. }
    split; [lia |].
    rewrite Z.mul_comm. apply Z.mod_mul. lia.
  - intros [Hi Hmod]. exists (Z.to_nat (i / 20)).
    assert (Ei : i = 20 * (i / 20)) by (apply Z.div_exact; lia || assumption).
    assert (0 <= i / 20) by (apply Z.div_pos; lia).
    split; [rewrite Z2Nat.id by assumption; lia |].
    apply in_seq. split; [lia |]. cbn [Nat.add].
    apply Z2Nat.inj_lt; [assumption | apply Z.div_pos; lia |].
    apply Z.div_lt_upper_bound; [lia |].
    assert (20 * ((bound + 20 - 1) / 20) > bound - 1).
    { pose proof (Z.mod_pos_bound (bound + 20 - 1) 20 ltac:(lia)).
      pose proof (Z.div_mod (bound + 20 - 1) 20 ltac:(lia)). lia. }
    lia.
Qed.

End Grid.

(** X12.  The two grid loops end because their counter reaches the bound
    (more fuel changes nothing) and draw one line per multiple of 20 below
    it: vertical lines at x = 0, 20, 40, ... < width over the full height,
    then horizontal lines at y = 0, 20, 40, ... < height over the full width,
    all in one stroke. *)
Theorem grid_lines (W H : Z) (samples : list number) (c : context) (extra : nat) :
  In (Stroke "rgba(255, 255, 255, 0.1)"
        (flat_map (fun i => [MoveTo (of_Z i) 0; LineTo (of_Z i) (of_Z H)])
                  (multiples W 20)
         ++ flat_map (fun i => [MoveTo 0 (of_Z i); LineTo (of_Z W) (of_Z i)])
                     (multiples H 20)))
     (snd (drawFPSGraph W H samples c)) /\
  (forall i, In i (multiples W 20) <-> 0 <= i < W /\ i mod 20 = 0) /\
  (forall i, In i (multiples H 20) <-> 0 <= i < H /\ i mod 20 = 0) /\
  (forall body, for_step (Z.to_nat W + extra) 0 W 20 body
                = for_step (Z.to_nat W) 0 W 20 body) /\
  (forall body, for_step (Z.to_nat H + extra) 0 H 20 body
                = for_step (Z.to_nat H) 0 H 20 body).
Proof.
  split; [| split; [| split; [| split]]].
  - rewrite drawFPSGraph_run. cbn [snd]. unfold overlay, grid.
    rewrite !for_step_path_from_zero. cbn [app In]. auto.
  - intros i. apply in_multiples.
  - intros i. apply in_multiples.
  - intros body. apply for_step_fuel; lia.
  - intros body. apply for_step_fuel; lia.
Qed.

Example grid_of_the_overlay :
  multiples 200 20 = [0; 20; 40; 60; 80; 100; 120; 140; 160; 180] /\
  multiples 100 20 = [0; 20; 40; 60; 80] /\
  multiples 90 20 = [0; 20; 40; 60; 80] /\
  multiples 0 20 = [].
Proof. vm_compute. repeat split; reflexivity. Qed.

(** X13.  Whatever the samples, [drawFPSGraph] paints exactly eleven times:
    it first clears the whole overlay and fills it with the background, so
    nothing of the previous frame is left, and the polyline is a single
    stroke, whose path has one vertex per sample after its starting point
    (and is only the starting point when there are fewer than two
    samples). *)
Theorem overlay_paints (W H : Z) (samples : list number) (c : context) :
  let painted := snd (drawFPSGraph W H samples c) in
  let n := length samples in
  length painted = 11%nat /\
  nth_error painted 0 = Some (ClearRect 0 0 (of_Z W) (of_Z H)) /\
  nth_error painted 1 = Some (FillRect "rgba(0, 0, 0, 0.7)" 0 0 (of_Z W) (of_Z H)) /\
  nth_error painted 9 = Some (Stroke "rgb(0, 255, 0)" (path (fst (drawFPSGraph W H samples c)))) /\
  length (path (fst (drawFPSGraph W H samples c)))
  = (if (1 <? n)%nat then S n else 1%nat).
Proof.
  intros painted n. subst painted n.
  rewrite drawFPSGraph_run. cbn [fst snd context_after path].
  repeat split; try reflexivity. apply polyline_length.
Qed.

(** ** The history of a run of frames *)

Section ConsecutiveFrames.

Lemma rates_frames (ts : list number) (prev : number) (g : globals) :
  lastTime g = prev ->
  falsy prev = false ->
  Forall (fun t => falsy t = false) ts ->
  rates (map Frame ts) g = pair_rates prev ts.
Proof.
  revert prev g. induction ts as [| t ts IH]; intros prev g Hl Hp Hts; [reflexivity |].
  inversion Hts as [| t' ts' Ht Hrest]; subst.
  cbn [map rates pair_rates app step]. f_equal.
  - unfold elapsedTimeSec, elapsedTimeMs, startTime. now rewrite Hp.
  - apply IH; [| assumption | assumption].
    now destruct (renderLoop_state t g) as (El & _).
Qed.

End ConsecutiveFrames.

(** X15.  The history of a run of frames is the list of rates between
    consecutive frames, newest 1000 kept: for truthy timestamps
    [t0, t1, ..., tn], the first of them finite, it is [Infinity] for the
    first frame followed by [1 / ((t(k+1) - tk) / 1000)] for each later
    one. *)
Theorem history_of_frames (innerWidth innerHeight : Z) (t0 : number) (ts : list number) :
  is_finite t0 = true ->
  falsy t0 = false ->
  Forall (fun t => falsy t = false) ts ->
  let samples := infinity :: pair_rates t0 ts in
  fpsArray (fst (run (map Frame (t0 :: ts)) (main innerWidth innerHeight)))
  = skipn (length samples - 1000) samples.
Proof.
  intros Hfin Ht0 Hts samples.
  rewrite run_history. cbn [main onResizeWindow fpsArray].
  assert (E : rates (map Frame (t0 :: ts)) (main innerWidth innerHeight) = samples).
  { subst samples. cbn [map rates app step]. f_equal.
    - destruct (first_tick_elapsed t0 (main innerWidth innerHeight)) as [_ ->];
        [reflexivity | assumption | reflexivity].
    - apply rates_frames; [| assumption | assumption].
      now destruct (renderLoop_state t0 (main innerWidth innerHeight)) as (El & _). }
  rewrite E, record_all_spec by (cbn [length]; lia). reflexivity.
Qed.

Lemma history_of_frames_witness :
  fpsArray (fst (run (map Frame [1000; 1016.5; 1033; 1033]%float) (main 800 600)))
  = [infinity; 1 / ((1016.5 - 1000) / 1000); 1 / ((1033 - 1016.5) / 1000); infinity]%float.
Proof.
  apply (history_of_frames 800 600 1000 [1016.5; 1033; 1033]%float).
  - reflexivity.
  - reflexivity.
  - repeat constructor.
Defined.

(** ** The polyline runs from left to right *)

Section LeftToRight.

(** For every number of samples a history can have, the horizontal
    positions on the overlay of the program increase with the index and stay
    within the overlay. *)
Lemma check_pairs_spec (P : Z -> Z -> bool) (zs : list Z) (ns : list nat) :
  check_pairs P zs ns = true ->
  forall n zi, In n ns -> In zi (firstn (n - 1) zs) -> P (Z.of_nat n - 1) zi = true.
Proof.
  unfold check_pairs. intros Hall n zi Hn Hzi.
  rewrite forallb_forall in Hall. specialize (Hall n Hn).
  rewrite forallb_forall in Hall. exact (Hall zi Hzi).
Qed.

Lemma x_ordered_1000 :
  check_pairs x_ordered (map Z.of_nat (List.seq 0 1001)) (List.seq 2 999) = true.
Proof. vm_compute. reflexivity. Qed.

Lemma xPosition_increasing (n i : nat) :
  (2 <= n <= 1000)%nat ->
  (S i < n)%nat ->
  (0 <=? xPosition 200 n i)%float = true /\
  (xPosition 200 n i <? xPosition 200 n (S i))%float = true /\
  (xPosition 200 n (S i) <=? 200)%float = true.
Proof.
  intros Hn Hi.
  assert (Hin : In (Z.of_nat i) (firstn (n - 1) (map Z.of_nat (List.seq 0 1001)))).
  { apply (nth_error_In _ i).
    rewrite nth_error_firstn, nth_error_map, nth_error_seq.
    destruct (Nat.ltb_spec i (n - 1)); [| lia].
    destruct (Nat.ltb_spec i 1001); [reflexivity | lia]. }
  assert (Hn' : In n (List.seq 2 999)) by (apply in_seq; lia).
  pose proof (check_pairs_spec _ _ _ x_ordered_1000 n (Z.of_nat i) Hn' Hin) as Hall.
  unfold x_ordered in Hall.
  apply andb_true_iff in Hall. destruct Hall as [Hall H3].
  apply andb_true_iff in Hall. destruct Hall as [H1 H2].
  unfold xPosition, of_nat. rewrite Nat2Z.inj_succ, <- Z.add_1_r.
  change (of_Z 200) with 200%float.
  split; [exact H1 | split; [exact H2 | exact H3]].
Qed.

End LeftToRight.

(** X16.  On every tick of the running program the polyline runs from left
    to right inside the overlay: of two consecutive vertices left in the
    path, the later one is strictly to the right, and both lie between x = 0
    and x = 200. *)
Theorem polyline_left_to_right (time : number) (g : globals) (i : nat)
        (x1 y1 x2 y2 : number) :
  reachable g ->
  let g' := fst (renderLoop time g) in
  nth_error (path (fpsContext g')) (S i) = Some (LineTo x1 y1) ->
  nth_error (path (fpsContext g')) (S (S i)) = Some (LineTo x2 y2) ->
  (0 <=? x1)%float = true /\ (x1 <? x2)%float = true /\ (x2 <=? 200)%float = true.
Proof.
  intros Hr g' H1 H2.
  destruct (reachable_inv g Hr) as [_ _ Hlen Hw Hh].
  destruct (renderLoop_state time g) as (_ & _ & Ea & _).
  assert (Hctx : path (fpsContext g') = polyline 200 100 (fpsArray g')).
  { subst g'. rewrite renderLoop_context, Ea, Hw, Hh. reflexivity. }
  set (n := length (fpsArray g')).
  assert (Hmax : (n <= 1000)%nat).
  { subst n g'. rewrite Ea, <- MAX_FPS_SAMPLES_eq. now apply track_bounded. }
  rewrite Hctx in H1, H2.
  assert (Hlt : (S (S i) < length (polyline 200 100 (fpsArray g')))%nat)
    by (apply nth_error_Some; congruence).
  rewrite polyline_length in Hlt. fold n in Hlt.
  destruct (Nat.ltb_spec 1 n) as [Hn | Hn]; [| lia].
  destruct (nth_error (fpsArray g') i) as [f1 |] eqn:E1;
    [| apply nth_error_None in E1; fold n in E1; lia].
  destruct (nth_error (fpsArray g') (S i)) as [f2 |] eqn:E2;
    [| apply nth_error_None in E2; fold n in E2; lia].
  rewrite (polyline_vertex 200 100 _ i f1 Hn E1) in H1.
  rewrite (polyline_vertex 200 100 _ (S i) f2 Hn E2) in H2.
  fold n in H1, H2. change (of_Z 200) with 200%float in H1, H2.
  injection H1 as <- _. injection H2 as <- _.
  apply xPosition_increasing; lia.
Qed.

Lemma polyline_left_to_right_witness :
  let g := fst (run [Frame 1000; Frame 1016.5] (main 800 600)) in
  (0 <=? 0)%float = true /\ (0 <? 100)%float = true /\ (100 <=? 200)%float = true.
Proof.
  intros g.
  apply (polyline_left_to_right 1033 g 0 0 (yPosition 100 200) 100
           (yPosition 100 (clamp (1 / ((1016.5 - 1000) / 1000))))).
  - exists 800, 600, [Frame 1000; Frame 1016.5]%float. reflexivity.
  - vm_compute. reflexivity.
  - vm_compute. reflexivity.
Defined.
